(** * Service registry: store, liveness sweep, filter engine, fan-out hub

    A shallow embedding of the Go sources of the service-discovery server

    - [models/instance.go]        the [Instance] and [Metadata] records,
    - [repository] (MongoRepo)    [Register], [UpdateHeartbeat], [Find],
                                  [CleanupDead],
    - [handlers/http.go]          the three HTTP handlers and [parseString],
    - [handlers/ws.go]            the client set and [BroadcastMessage],

    together with the properties of the natural-language specification
    that can be stated over it.

    Conventions.  Instants ([time.Time]) and durations are integers:
    nanoseconds, as in Go's [time] package, instants being counted from the
    zero [time.Time].  A date in the collection or in a filter is a BSON
    date, which holds whole milliseconds: an instant that goes through the
    driver is rounded down to the millisecond ([bson.DateTime]).  The clock
    reading [time.Now()] is an explicit argument [now].  The MongoDB collection is a list of documents
    in natural order, each seen through its decoding as a
    [models.Instance] (the [_id] the server adds is not part of it).  A
    driver call takes an explicit [fault] argument: the error, if any, with
    which the driver or the server fails the call.  Everything is
    sequential: one handler, one sweep or one broadcast runs at a time. *)

From Stdlib Require Import ZArith Ascii DecimalString.
From stdpp Require Import functions gmap strings fin_maps list.

Open Scope Z_scope.

(* ===================================================================== *)
(** ** models/instance.go *)
(* ===================================================================== *)

Module models.

Record Metadata := mkMetadata {
  Environment  : string;
  Region       : string;
  Version      : Z;
  Developer    : string;
  Experimental : bool
}.

(** The field of type [Metadata] is called [Metadata] in Go. *)
Record Instance := mkInstance {
  ServiceName   : string;
  ID            : string;
  Host          : string;
  Port          : Z;
  Mode          : string;
  Metadata_     : Metadata;
  Health        : string;
  LastHeartbeat : Z
}.

#[global] Instance Metadata_eq_dec : EqDecision Metadata.
Proof. solve_decision. Defined.

#[global] Instance Instance_eq_dec : EqDecision Instance.
Proof. solve_decision. Defined.

(** Go's zero values. *)
Definition zeroMetadata : Metadata := mkMetadata "" "" 0 "" false.
Definition zeroInstance : Instance := mkInstance "" "" "" 0 "" zeroMetadata "" 0.

(** Field assignments [inst.F = v]. *)
Definition setServiceName (s : string) (i : Instance) : Instance :=
  mkInstance s (ID i) (Host i) (Port i) (Mode i) (Metadata_ i) (Health i) (LastHeartbeat i).
Definition setID (s : string) (i : Instance) : Instance :=
  mkInstance (ServiceName i) s (Host i) (Port i) (Mode i) (Metadata_ i) (Health i) (LastHeartbeat i).
Definition setHost (s : string) (i : Instance) : Instance :=
  mkInstance (ServiceName i) (ID i) s (Port i) (Mode i) (Metadata_ i) (Health i) (LastHeartbeat i).
Definition setPort (n : Z) (i : Instance) : Instance :=
  mkInstance (ServiceName i) (ID i) (Host i) n (Mode i) (Metadata_ i) (Health i) (LastHeartbeat i).
Definition setMode (s : string) (i : Instance) : Instance :=
  mkInstance (ServiceName i) (ID i) (Host i) (Port i) s (Metadata_ i) (Health i) (LastHeartbeat i).
Definition setMetadata (m : Metadata) (i : Instance) : Instance :=
  mkInstance (ServiceName i) (ID i) (Host i) (Port i) (Mode i) m (Health i) (LastHeartbeat i).
Definition setHealth (s : string) (i : Instance) : Instance :=
  mkInstance (ServiceName i) (ID i) (Host i) (Port i) (Mode i) (Metadata_ i) s (LastHeartbeat i).
Definition setLastHeartbeat (t : Z) (i : Instance) : Instance :=
  mkInstance (ServiceName i) (ID i) (Host i) (Port i) (Mode i) (Metadata_ i) (Health i) t.

(** The [binding] tags: [required] rejects the zero value of the field,
    [oneof] restricts a string to the listed words. *)
Definition oneof (words : list string) (s : string) : bool :=
  existsb (String.eqb s) words.

Definition required_string (s : string) : bool := negb (String.eqb s "").
Definition required_int (n : Z) : bool := negb (n =? 0).

Definition validMetadata (m : Metadata) : bool :=
  required_string (Environment m) && oneof ["dev"; "staging"; "prod"] (Environment m)
  && required_string (Region m)
  && required_int (Version m).

Definition validInstance (i : Instance) : bool :=
  required_string (ServiceName i)
  && required_string (ID i)
  && required_string (Host i)
  && required_int (Port i)
  && required_string (Mode i) && oneof ["dev"; "staging"; "prod"] (Mode i)
  && validMetadata (Metadata_ i).

End models.
Export models.

(* ===================================================================== *)
(** ** BSON values, documents and query filters (the Mongo driver) *)
(* ===================================================================== *)

Module bson.

(** A BSON date is a 64-bit count of milliseconds since the Unix epoch.
    The driver encodes a [time.Time] with [primitive.NewDateTimeFromTime],
    [t.Unix()*1e3 + t.Nanosecond()/1e6], which drops what the instant has
    below the millisecond, and decodes the date as the instant of that
    millisecond.  [DateTime t] is the instant that comes back for [t]; the
    zero [time.Time] and the Unix epoch are whole seconds apart, so rounding
    down does not depend on which of them instants are counted from. *)
Definition Millisecond : Z := 1000000.
Definition DateTime (t : Z) : Z := t / Millisecond * Millisecond.
Arguments DateTime t : simpl never.

(** The BSON values that occur in this collection and in its filters; a
    date is given by its instant, a whole number of milliseconds. *)
#[warnings="-register-all"]
Inductive value :=
| BString (s : string)
| BInt (n : Z)
| BBool (b : bool)
| BDateTime (t : Z)
| BDocument (fields : list (string * value)).

Definition document := list (string * value).

(** Equality of BSON values: same type and same content; embedded
    documents compare field by field, in order. *)
Fixpoint value_eqb (a b : value) {struct a} : bool :=
  match a, b with
  | BString s, BString t => String.eqb s t
  | BInt n, BInt m => n =? m
  | BBool x, BBool y => Bool.eqb x y
  | BDateTime s, BDateTime t => s =? t
  | BDocument f, BDocument g =>
      (fix fields_eqb (f g : list (string * value)) {struct f} : bool :=
         match f, g with
         | [], [] => true
         | (k, v) :: f', (k', v') :: g' =>
             String.eqb k k' && value_eqb v v' && fields_eqb f' g'
         | _, _ => false
         end) f g
  | _, _ => false
  end.

(** First field of a document with the given name. *)
Fixpoint get (name : string) (d : document) : option value :=
  match d with
  | [] => None
  | (k, v) :: rest => if String.eqb k name then Some v else get name rest
  end.

(** A dotted path is split at every ['.']. *)
Fixpoint split_dot (s : string) : list string :=
  match s with
  | EmptyString => [EmptyString]
  | String c rest =>
      if Ascii.eqb c "."%char then EmptyString :: split_dot rest
      else match split_dot rest with
           | h :: t => String c h :: t
           | [] => [String c EmptyString]
           end
  end.

(** Walk a path into embedded documents. *)
Fixpoint lookup_path (segs : list string) (v : value) : option value :=
  match segs with
  | [] => Some v
  | s :: rest =>
      match v with
      | BDocument fields =>
          match get s fields with
          | Some w => lookup_path rest w
          | None => None
          end
      | _ => None
      end
  end.

Definition at_path (path : string) (d : document) : option value :=
  lookup_path (split_dot path) (BDocument d).

(** One entry of a filter document [bson.M]: a plain value is an equality
    constraint; [bson.M{"$gte": t}] and [bson.M{"$lt": t}] bound a date,
    [t] being the instant of the BSON date in the filter. *)
Inductive cond :=
| CEq (v : value)
| CGte (t : Z)
| CLt (t : Z).

Definition holds (c : cond) (o : option value) : bool :=
  match c, o with
  | CEq v, Some w => value_eqb v w
  | CGte t, Some (BDateTime h) => t <=? h
  | CLt t, Some (BDateTime h) => h <? t
  | _, _ => false
  end.

(** Marshalling along the [bson] struct tags of models/instance.go. *)
Definition marshalMetadata (m : Metadata) : document :=
  [ ("environment", BString (Environment m));
    ("region", BString (Region m));
    ("version", BInt (Version m));
    ("developer", BString (Developer m));
    ("experimental", BBool (Experimental m)) ].

Definition marshal (i : Instance) : document :=
  [ ("serviceName", BString (ServiceName i));
    ("id", BString (ID i));
    ("host", BString (Host i));
    ("port", BInt (Port i));
    ("mode", BString (Mode i));
    ("metadata", BDocument (marshalMetadata (Metadata_ i)));
    ("health", BString (Health i));
    ("lastHeartbeat", BDateTime (DateTime (LastHeartbeat i))) ].

(** Decoding: a field that is absent or of another type leaves the
    struct field as it is. *)
Definition decode_string (o : option value) (dflt : string) : string :=
  match o with Some (BString s) => s | _ => dflt end.
Definition decode_int (o : option value) (dflt : Z) : Z :=
  match o with Some (BInt n) => n | _ => dflt end.
Definition decode_bool (o : option value) (dflt : bool) : bool :=
  match o with Some (BBool b) => b | _ => dflt end.

Definition unmarshalMetadata (d : document) (m : Metadata) : Metadata :=
  mkMetadata
    (decode_string (get "environment" d) (Environment m))
    (decode_string (get "region" d) (Region m))
    (decode_int (get "version" d) (Version m))
    (decode_string (get "developer" d) (Developer m))
    (decode_bool (get "experimental" d) (Experimental m)).

(** [$set] of one top-level field of a stored document.  A [$set] of
    ["metadata"] replaces the whole embedded document. *)
Definition set_field (name : string) (v : value) (i : Instance) : Instance :=
  if String.eqb name "serviceName" then
    match v with BString s => setServiceName s i | _ => i end
  else if String.eqb name "id" then
    match v with BString s => setID s i | _ => i end
  else if String.eqb name "host" then
    match v with BString s => setHost s i | _ => i end
  else if String.eqb name "port" then
    match v with BInt n => setPort n i | _ => i end
  else if String.eqb name "mode" then
    match v with BString s => setMode s i | _ => i end
  else if String.eqb name "metadata" then
    match v with
    | BDocument d => setMetadata (unmarshalMetadata d zeroMetadata) i
    | _ => i
    end
  else if String.eqb name "health" then
    match v with BString s => setHealth s i | _ => i end
  else if String.eqb name "lastHeartbeat" then
    match v with BDateTime t => setLastHeartbeat t i | _ => i end
  else i.

(** [bson.M{"$set": fields}] applied to a document. *)
Definition apply_set (fields : document) (i : Instance) : Instance :=
  foldl (λ acc kv, set_field kv.1 kv.2 acc) i fields.

End bson.
Export bson.

(* ===================================================================== *)
(** ** The collection and the driver calls the repository makes *)
(* ===================================================================== *)

Module mongo.

Inductive error :=
| ErrNoDocuments
| ErrBackend (msg : string).

(** [err.Error()] *)
Definition Error (e : error) : string :=
  match e with
  | ErrNoDocuments => "mongo: no documents in result"
  | ErrBackend msg => msg
  end.

Inductive result (A : Type) :=
| Ok (a : A)
| Err (e : error).
Arguments Ok {A} a.
Arguments Err {A} e.

Definition err_of {A} (r : result A) : option error :=
  match r with Ok _ => None | Err e => Some e end.

(** A Go slice value is either [nil] or a (possibly empty) sequence. *)
Inductive slice (A : Type) :=
| NilSlice
| Slice (elems : list A).
Arguments NilSlice {A}.
Arguments Slice {A} elems.

Definition elems {A} (s : slice A) : list A :=
  match s with NilSlice => [] | Slice l => l end.

(** A document satisfies a filter when it satisfies every entry. *)
Definition matches (flt : gmap string cond) (i : Instance) : bool :=
  bool_decide (map_Forall (λ path c, holds c (at_path path (marshal i)) = true) flt).

(** Documents in natural (insertion) order. *)
Definition collection := list Instance.

Record UpdateResult := mkUpdateResult {
  MatchedCount  : Z;
  ModifiedCount : Z;
  UpsertedCount : Z
}.

Record DeleteResult := mkDeleteResult { DeletedCount : Z }.

(** Apply [$set] to the first document the filter matches. *)
Fixpoint update_first (flt : gmap string cond) (set : document)
         (c : collection) : option (Instance * collection) :=
  match c with
  | [] => None
  | d :: rest =>
      if matches flt d then Some (d, apply_set set d :: rest)
      else match update_first flt set rest with
           | Some (old, rest') => Some (old, d :: rest')
           | None => None
           end
  end.

(** The document an upsert starts from: the equality fields of the
    filter. *)
Definition seed (flt : gmap string cond) : Instance :=
  map_fold (λ path c acc, match c with CEq v => set_field path v acc | _ => acc end)
           zeroInstance flt.

(** [coll.UpdateOne(ctx, filter, bson.M{"$set": set}, opts)] *)
Definition UpdateOne (fault : option error) (flt : gmap string cond)
           (set : document) (upsert : bool) (c : collection)
  : result UpdateResult * collection :=
  match fault with
  | Some e => (Err e, c)
  | None =>
      match update_first flt set c with
      | Some (old, c') =>
          (Ok (mkUpdateResult 1 (if decide (apply_set set old = old) then 0 else 1) 0), c')
      | None =>
          if upsert
          then (Ok (mkUpdateResult 0 0 1), c ++ [apply_set set (seed flt)])
          else (Ok (mkUpdateResult 0 0 0), c)
      end
  end.

(** [coll.Find(ctx, filter)]: a cursor over the matching documents. *)
Definition Find (fault : option error) (flt : gmap string cond)
           (c : collection) : result (list Instance) :=
  match fault with
  | Some e => Err e
  | None => Ok (List.filter (matches flt) c)
  end.

(** [cur.All(ctx, &dst)]: the decoded documents are appended to [dst]
    cut to length zero, and the result is stored back; with no document
    and a nil [dst], [dst] stays nil. *)
Definition All {A} (fault : option error) (cur : list A) (dst : slice A)
  : result (slice A) :=
  match fault with
  | Some e => Err e
  | None =>
      match dst, cur with
      | NilSlice, [] => Ok NilSlice
      | _, _ => Ok (Slice cur)
      end
  end.

(** [coll.DeleteMany(ctx, filter)] *)
Definition DeleteMany (fault : option error) (flt : gmap string cond)
           (c : collection) : result DeleteResult * collection :=
  match fault with
  | Some e => (Err e, c)
  | None =>
      (Ok (mkDeleteResult (Z.of_nat (length (List.filter (matches flt) c)))),
       List.filter (λ d, negb (matches flt d)) c)
  end.

End mongo.
Export mongo.

(* ===================================================================== *)
(** ** repository: MongoRepo *)
(* ===================================================================== *)

Module repository.

(** [func (r *MongoRepo) Register(ctx, inst models.Instance) error].
    [inst] is passed by value: the assignments below change the callee's
    copy only. *)
Definition Register (now : Z) (fault : option error) (inst : Instance)
           (c : collection) : option error * collection :=
  let inst := setLastHeartbeat now inst in
  let inst := setHealth "UP" inst in
  let flt : gmap string cond :=
    {[ "serviceName" := CEq (BString (ServiceName inst));
       "id" := CEq (BString (ID inst)) ]} in
  let '(res, c') := UpdateOne fault flt (marshal inst) true c in
  (err_of res, c').

(** [func (r *MongoRepo) UpdateHeartbeat(ctx, serviceName, id string) error] *)
Definition UpdateHeartbeat (now : Z) (fault : option error)
           (serviceName id : string) (c : collection)
  : option error * collection :=
  let flt : gmap string cond :=
    {[ "serviceName" := CEq (BString serviceName);
       "id" := CEq (BString id) ]} in
  let update : document :=
    [ ("lastHeartbeat", BDateTime (DateTime now)); ("health", BString "UP") ] in
  match UpdateOne fault flt update false c with
  | (Err e, c') => (Some e, c')
  | (Ok res, c') =>
      if MatchedCount res =? 0 then (Some ErrNoDocuments, c')
      else (None, c')
  end.

(** The filter document [Find] builds. *)
Definition find_filter (now : Z) (serviceName mode : string)
           (metadata : gmap string value) (aliveOnly : bool) (ttl : Z)
  : gmap string cond :=
  let flt : gmap string cond := ∅ in
  let flt := if negb (String.eqb serviceName "")
             then <["serviceName" := CEq (BString serviceName)]> flt else flt in
  let flt := if negb (String.eqb mode "")
             then <["mode" := CEq (BString mode)]> flt else flt in
  let flt := map_fold (λ k v acc, <["metadata." +:+ k := CEq v]> acc) flt metadata in
  if aliveOnly then
    let cutoff := now + (- ttl) in
    <["lastHeartbeat" := CGte (DateTime cutoff)]> flt
  else flt.

(** [func (r *MongoRepo) Find(ctx, serviceName, mode, metadata, aliveOnly, ttl)
     ([]models.Instance, error)].  [fault] fails [coll.Find], [fault_all]
    fails [cur.All]. *)
Definition Find (now : Z) (fault fault_all : option error)
           (serviceName mode : string) (metadata : gmap string value)
           (aliveOnly : bool) (ttl : Z) (c : collection)
  : slice Instance * option error :=
  let flt := find_filter now serviceName mode metadata aliveOnly ttl in
  match mongo.Find fault flt c with
  | Err e => (NilSlice, Some e)
  | Ok cur =>
      let instances : slice Instance := NilSlice in
      match All fault_all cur instances with
      | Err e => (NilSlice, Some e)
      | Ok instances => (instances, None)
      end
  end.

(** [func (r *MongoRepo) CleanupDead(ctx, ttl) error] *)
Definition CleanupDead (now : Z) (fault : option error) (ttl : Z)
           (c : collection) : option error * collection :=
  let cutoff := now + (- ttl) in
  let flt : gmap string cond := {[ "lastHeartbeat" := CLt (DateTime cutoff) ]} in
  let '(res, c') := DeleteMany fault flt c in
  (err_of res, c').

End repository.

Export repository.

(* ===================================================================== *)
(** ** handlers/ws.go: the client set and the broadcast *)
(* ===================================================================== *)

Module ws.

Inductive ServiceUpdateAction :=
| ActionRegister
| ActionDeregister
| ActionHeartbeat.

Record ServiceUpdate := mkServiceUpdate {
  Action  : ServiceUpdateAction;
  Service : Instance
}.

(** A [*websocket.Conn] is identified by its address. *)
Abbreviation Conn := nat.

(** What is known of a connection: whether the peer can still be
    written to, whether [Close] was called, and the messages written. *)
Record ConnState := mkConnState {
  broken : bool;
  closed : bool;
  sent   : list ServiceUpdate
}.

Definition fresh_conn : ConnState := mkConnState false false [].

(** The package-level [clients] map (its values are always [true], so
    only its key set matters) and the connections it points to. *)
Record Hub := mkHub {
  clients : gset Conn;
  conns   : Conn → ConnState
}.

Definition empty_hub : Hub := mkHub ∅ (λ _, fresh_conn).

(** [client.WriteJSON(msg)]: fails on a closed or broken connection. *)
Definition WriteJSON (c : Conn) (msg : ServiceUpdate) (h : Hub) : bool * Hub :=
  let st := conns h c in
  if broken st || closed st then (false, h)
  else (true, mkHub (clients h)
                    (<[c := mkConnState (broken st) (closed st) (sent st ++ [msg])]> (conns h))).

(** [client.Close()] *)
Definition Close (c : Conn) (h : Hub) : Hub :=
  let st := conns h c in
  mkHub (clients h) (<[c := mkConnState (broken st) true (sent st)]> (conns h)).

(** [delete(clients, client)] *)
Definition delete_client (c : Conn) (h : Hub) : Hub :=
  mkHub (clients h ∖ {[c]}) (conns h).

(** [HandleWebSocket]: the connection joins [clients] after the upgrade
    and leaves it when the read loop ends. *)
Definition connect (c : Conn) (h : Hub) : Hub :=
  mkHub ({[c]} ∪ clients h) (conns h).
Definition disconnect (c : Conn) (h : Hub) : Hub :=
  delete_client c (Close c h).

(** The body of the [for client := range clients] loop.  A key removed
    before it is reached is not produced by [range]. *)
Definition broadcast_step (msg : ServiceUpdate) (h : Hub) (client : Conn) : Hub :=
  if decide (client ∈ clients h) then
    let '(ok, h) := WriteJSON client msg h in
    if ok then h
    else delete_client client (Close client h)
  else h.

(** [BroadcastMessage(msg)], the keys being visited in the order [order]
    (Go leaves the iteration order of a map unspecified). *)
Definition BroadcastMessage_in (order : list Conn) (msg : ServiceUpdate) (h : Hub) : Hub :=
  foldl (broadcast_step msg) h order.

Definition BroadcastMessage (msg : ServiceUpdate) (h : Hub) : Hub :=
  BroadcastMessage_in (elements (clients h)) msg h.

End ws.
Export ws.

(* ===================================================================== *)
(** ** handlers/http.go *)
(* ===================================================================== *)

Module handlers.

(** The process: the repository's collection and the WebSocket hub. *)
Record Server := mkServer {
  registry : collection;
  hub      : Hub
}.

Inductive herror :=
| EDecode
| EValidation
| EStore (e : error).

(** Response bodies: [gin.H{"error": err.Error()}] is kept as the error
    itself, [gin.H{"message": m}] as [JMessage m]. *)
Inductive json :=
| JNull
| JInstance (i : Instance)
| JArray (l : list Instance)
| JError (e : herror)
| JMessage (m : string).

Record Response := mkResponse {
  status : Z;
  body   : json
}.

Definition StatusOK : Z := 200.
Definition StatusBadRequest : Z := 400.
Definition StatusNotFound : Z := 404.
Definition StatusInternalServerError : Z := 500.

(** [encoding/json] writes a nil slice as [null] and any other slice as
    an array. *)
Definition json_of_slice (s : slice Instance) : json :=
  match s with
  | NilSlice => JNull
  | Slice l => JArray l
  end.

(** [c.ShouldBindJSON(&inst)]: [decoded] is the struct the JSON decoder
    filled in ([None] when the body is not well-formed JSON of that
    shape); the [binding] tags are checked afterwards. *)
Definition ShouldBindJSON (decoded : option Instance) : Instance + herror :=
  match decoded with
  | None => inr EDecode
  | Some inst => if validInstance inst then inl inst else inr EValidation
  end.

(** helper to parse strings to bool/int/float if possible *)
Definition parseString (s : string) : value :=
  if String.eqb s "true" then BBool true
  else if String.eqb s "false" then BBool false
  else BString s.

(** [url.Values]: every key of the query string with its values in order
    of appearance ([m[key] = append(m[key], value)]). *)
Definition URL_Query (raw : list (string * string)) : gmap string (list string) :=
  foldl (λ m kv, <[kv.1 := default [] (m !! kv.1) ++ [kv.2]]> m) ∅ raw.

(** [c.Query(key)]: the first value of the key, or [""]. *)
Definition Query (q : gmap string (list string)) (key : string) : string :=
  match q !! key with
  | Some (v :: _) => v
  | _ => ""
  end.

(** The loop of the lookup handler over [c.Request.URL.Query()].
    [vals[0]] is [hd "" vals]: a key of [url.Values] never has an empty
    list of values. *)
Definition lookup_metadata (q : gmap string (list string)) : gmap string value :=
  map_fold (λ key vals metadata,
              if String.eqb key "service" || String.eqb key "mode" then metadata
              else <[key := parseString (hd "" vals)]> metadata)
           ∅ q.

Section routes.
(** [SetupRoutes(r, repo, heartbeatTTL)] *)
Variable heartbeatTTL : Z.

(** [POST /register] *)
Definition register (now : Z) (fault : option error)
           (decoded : option Instance) (s : Server) : Response * Server :=
  match ShouldBindJSON decoded with
  | inr err => (mkResponse StatusBadRequest (JError err), s)
  | inl inst =>
      match Register now fault inst (registry s) with
      | (Some err, c') =>
          (mkResponse StatusInternalServerError (JError (EStore err)),
           mkServer c' (hub s))
      | (None, c') =>
          (mkResponse StatusOK (JInstance inst), mkServer c' (hub s))
      end
  end.

(** [POST /heartbeat]; [decoded] is the request struct
    [{ServiceName, ID}], which carries no [binding] tag. *)
Definition heartbeat (now : Z) (fault : option error)
           (decoded : option (string * string)) (s : Server) : Response * Server :=
  match decoded with
  | None => (mkResponse StatusBadRequest (JError EDecode), s)
  | Some (serviceName, id) =>
      match UpdateHeartbeat now fault serviceName id (registry s) with
      | (Some err, c') =>
          (mkResponse StatusNotFound (JError (EStore err)), mkServer c' (hub s))
      | (None, c') =>
          (mkResponse StatusOK (JMessage "heartbeat ok"), mkServer c' (hub s))
      end
  end.

(** [GET /lookup] *)
Definition lookup (now : Z) (fault fault_all : option error)
           (raw : list (string * string)) (s : Server) : Response * Server :=
  let q := URL_Query raw in
  let service := Query q "service" in
  let mode := Query q "mode" in
  let metadata := lookup_metadata q in
  match Find now fault fault_all service mode metadata true heartbeatTTL (registry s) with
  | (_, Some err) =>
      (mkResponse StatusInternalServerError (JError (EStore err)), s)
  | (instances, None) =>
      (mkResponse StatusOK (json_of_slice instances), s)
  end.

End routes.

End handlers.
Export handlers.

(* ===================================================================== *)
(** ** main.go: configuration and the cleanup goroutine *)
(* ===================================================================== *)

Module main.

Definition Second : Z := 1000000000.
Definition heartbeatTTL : Z := 30 * Second.
Definition cleanupInterval : Z := 10 * Second.

(** One firing of the ticker: [_ = repo.CleanupDead(ctx, heartbeatTTL)];
    the error is dropped. *)
Definition cleanup_tick (now : Z) (fault : option error) (s : Server) : Server :=
  mkServer (snd (CleanupDead now fault heartbeatTTL (registry s))) (hub s).

End main.
Export main.

(* ===================================================================== *)
(** ** sdk/go: the Go client (types.go, validation.go, client.go) *)
(* ===================================================================== *)

Module sdk.

(** The SDK's [Instance] and [Metadata] structs have the fields of the
    server's, under the same JSON names; [models.Instance] is used for
    both.  A field the SDK leaves out of the body ([omitempty]) has the
    zero value, which is what the server's decoder leaves in its place, so
    the struct the server decodes has the field values of the one sent. *)
Definition EnvDev : string := "dev".
Definition EnvStaging : string := "staging".
Definition EnvProd : string := "prod".

Record Config := mkConfig {
  BaseURL              : string;
  Timeout              : Z;
  MaxHeartbeatFailures : Z
}.

Definition DefaultConfig (baseURL : string) : Config :=
  mkConfig baseURL (5 * Second) 3.

(** [unicode.IsSpace] on the bytes of a UTF-8 string: the one-byte white
    space, then U+0085 and U+00A0, then U+1680, U+2000..U+200A, U+2028,
    U+2029, U+202F, U+205F and U+3000. *)
Definition space1 (b : N) : bool :=
  ((9 <=? b) && (b <=? 13) || (b =? 32))%N.

Definition space2 (b1 b2 : N) : bool :=
  ((b1 =? 194) && ((b2 =? 133) || (b2 =? 160)))%N.

Definition space3 (b1 b2 b3 : N) : bool :=
  ((b1 =? 225) && (b2 =? 154) && (b3 =? 128)
   || (b1 =? 226) && (b2 =? 128)
      && ((128 <=? b3) && (b3 <=? 138) || (b3 =? 168) || (b3 =? 169) || (b3 =? 175))
   || (b1 =? 226) && (b2 =? 129) && (b3 =? 159)
   || (b1 =? 227) && (b2 =? 128) && (b3 =? 128))%N.

(** [strings.TrimSpace(s) == ""]: the string consists of white space
    only. *)
Fixpoint TrimSpace_empty (s : string) : bool :=
  match s with
  | EmptyString => true
  | String c1 r1 =>
      if space1 (N_of_ascii c1) then TrimSpace_empty r1
      else
        match r1 with
        | EmptyString => false
        | String c2 r2 =>
            if space2 (N_of_ascii c1) (N_of_ascii c2) then TrimSpace_empty r2
            else
              match r2 with
              | EmptyString => false
              | String c3 r3 =>
                  if space3 (N_of_ascii c1) (N_of_ascii c2) (N_of_ascii c3)
                  then TrimSpace_empty r3
                  else false
              end
        end
  end.

Definition is_env (s : string) : bool :=
  String.eqb s EnvDev || String.eqb s EnvStaging || String.eqb s EnvProd.

(** [func (c *Client) validateMetadata(metadata Metadata) error]; the
    result is the message of the error, [None] for [nil]. *)
Definition validateMetadata (metadata : models.Metadata) : option string :=
  if negb (is_env (Environment metadata))
  then Some "environment must be one of: dev, staging, prod"
  else if TrimSpace_empty (Region metadata)
  then Some "region is required"
  else if Version metadata <? 0
  then Some "version must be non-negative"
  else None.

(** [func (c *Client) validateInstance(instance Instance) error] *)
Definition validateInstance (instance : Instance) : option string :=
  if TrimSpace_empty (ServiceName instance) then Some "serviceName is required"
  else if TrimSpace_empty (ID instance) then Some "id is required"
  else if TrimSpace_empty (Host instance) then Some "host is required"
  else if (Port instance <? 1) || (65535 <? Port instance)
  then Some "port must be between 1 and 65535"
  else if negb (is_env (Mode instance))
  then Some "mode must be one of: dev, staging, prod"
  else validateMetadata (Metadata_ instance).

Inductive error :=
| ErrValidation (msg : string)
| ErrStatus (code : Z).

(** [func (c *Client) Register(ctx, instance Instance) error].  The POST is
    the server's [register] handler run on the decoded body; a request is
    taken to reach the server. *)
Definition Register (now : Z) (fault : option mongo.error) (instance : Instance)
           (s : Server) : option error * Server :=
  match validateInstance instance with
  | Some msg => (Some (ErrValidation msg), s)
  | None =>
      let '(resp, s') := register now fault (Some instance) s in
      if negb (status resp =? 200) then (Some (ErrStatus (status resp)), s')
      else (None, s')
  end.

(** [func (c *Client) Heartbeat(ctx, serviceName, id string) error] *)
Definition Heartbeat (now : Z) (fault : option mongo.error) (serviceName id : string)
           (s : Server) : option error * Server :=
  let '(resp, s') := heartbeat now fault (Some (serviceName, id)) s in
  if negb (status resp =? 200) then (Some (ErrStatus (status resp)), s')
  else (None, s').

(** The client: its configuration, whether [heartbeatTicker] is non-nil,
    and the fields the heartbeat goroutine reads and writes. *)
Record Client := mkClient {
  config             : Config;
  heartbeatTicker    : bool;
  heartbeatFailures  : Z;
  currentServiceName : string;
  currentInstanceID  : string
}.

(** [func NewClient(config *Config)]: the client, or [None] for the error. *)
Definition NewClient (config : option Config) : option Client :=
  match config with
  | None => None
  | Some cfg =>
      if String.eqb (BaseURL cfg) "" then None
      else Some (mkClient cfg false 0 "" "")
  end.

(** [func (c *Client) StopHeartbeat()] *)
Definition StopHeartbeat (c : Client) : Client :=
  mkClient (config c) false 0 "" "".

(** [func (c *Client) StartHeartbeat(serviceName, id string, interval)] *)
Definition StartHeartbeat (serviceName id : string) (c : Client) : Client :=
  let c := StopHeartbeat c in
  mkClient (config c) true 0 serviceName id.

(** One firing of the ticker in the goroutine [StartHeartbeat] starts.  A
    stopped ticker does not fire. *)
Definition heartbeat_tick (now : Z) (fault : option mongo.error)
           (cs : Client * Server) : Client * Server :=
  let '(c, s) := cs in
  if negb (heartbeatTicker c) then (c, s)
  else
    let sn := currentServiceName c in
    let iid := currentInstanceID c in
    if String.eqb sn "" || String.eqb iid "" then (c, s)
    else
      match Heartbeat now fault sn iid s with
      | (Some _, s') =>
          let c := mkClient (config c) (heartbeatTicker c) (heartbeatFailures c + 1)
                            (currentServiceName c) (currentInstanceID c) in
          if MaxHeartbeatFailures (config c) <=? heartbeatFailures c
          then (StopHeartbeat c, s')
          else (c, s')
      | (None, s') =>
          (mkClient (config c) (heartbeatTicker c) 0
                    (currentServiceName c) (currentInstanceID c), s')
      end.

(** [func (c *Client) GetHeartbeatStatus() (isRunning bool, failureCount int)] *)
Definition GetHeartbeatStatus (c : Client) : bool * Z :=
  (heartbeatTicker c, heartbeatFailures c).

(** [func (c *Client) AutoRegister(ctx, instance, heartbeatInterval) error] *)
Definition AutoRegister (now : Z) (fault : option mongo.error) (instance : Instance)
           (cs : Client * Server) : option error * (Client * Server) :=
  let '(c, s) := cs in
  match Register now fault instance s with
  | (Some err, s') => (Some err, (c, s'))
  | (None, s') =>
      (None, (StartHeartbeat (ServiceName instance) (ID instance) c, s'))
  end.

(** A value of type [interface{}] in [LookupFilter.Metadata]. *)
Inductive any :=
| AString (v : string)
| AInt (v : Z)
| ABool (v : bool)
| AOther.

Record LookupFilter := mkLookupFilter {
  Service  : string;
  Metadata : gmap string any
}.

(** [fmt.Sprintf("%d", v)] and [fmt.Sprintf("%t", v)] *)
Definition Sprintf_d (v : Z) : string := NilZero.string_of_int (Z.to_int v).
Definition Sprintf_t (v : bool) : string := if v then "true" else "false".

(** The query parameters [Lookup] sets on the request
    ([SetQueryParam] replaces the value of the key). *)
Definition Lookup_params (filter : LookupFilter) : gmap string string :=
  let params : gmap string string := ∅ in
  let params := if negb (String.eqb (Service filter) "")
                then <["service" := Service filter]> params else params in
  map_fold (λ key value params,
              match value with
              | AString v => <[key := v]> params
              | AInt v => <[key := Sprintf_d v]> params
              | ABool v => <[key := Sprintf_t v]> params
              | AOther => params
              end)
           params (Metadata filter).

(** What [Lookup] returns for a response: the body decoded into
    [var instances []Instance] ([null] leaves it nil), or an error for a
    status other than 200. *)
Definition Lookup_result (resp : Response) : slice Instance * option error :=
  if negb (status resp =? 200) then (NilSlice, Some (ErrStatus (status resp)))
  else match body resp with
       | JArray l => (Slice l, None)
       | _ => (NilSlice, None)
       end.

(** [func (c *Client) Lookup(ctx, filter LookupFilter) ([]Instance, error)];
    [raw] is the query string as the server parses it. *)
Definition Lookup (ttl now : Z) (raw : list (string * string)) (s : Server)
  : slice Instance * option error :=
  Lookup_result (fst (lookup ttl now None None raw s)).

End sdk.

(* ===================================================================== *)
(** ** ui/app.js: reconnection of the dashboard's WebSocket *)
(* ===================================================================== *)

Module ui.

(** JavaScript numbers are doubles; the counters are modelled as integers,
    which is exact up to [Number.MAX_SAFE_INTEGER]. *)
Definition MAX_SAFE_INTEGER : Z := 2 ^ 53 - 1.

Record Dashboard := mkDashboard {
  reconnectAttempts    : Z;
  maxReconnectAttempts : Z
}.

(** The constructor: [reconnectAttempts = 0], [maxReconnectAttempts = 5]. *)
Definition new_dashboard : Dashboard := mkDashboard 0 5.

(** [websocket.onopen] *)
Definition onopen (d : Dashboard) : Dashboard :=
  mkDashboard 0 (maxReconnectAttempts d).

(** [attemptReconnect()]: the delay of the [setTimeout] it schedules, or
    [None] when it gives up and shows the error. *)
Definition attemptReconnect (d : Dashboard) : option Z * Dashboard :=
  if maxReconnectAttempts d <=? reconnectAttempts d then (None, d)
  else
    let attempts := reconnectAttempts d + 1 in
    let delay := Z.min (1000 * 2 ^ attempts) 30000 in
    (Some delay, mkDashboard attempts (maxReconnectAttempts d)).

End ui.

(* ===================================================================== *)
(** ** The server as a whole: requests in sequence *)
(* ===================================================================== *)

(** What can happen to the server: the three HTTP requests, a firing of the
    cleanup ticker, a WebSocket connecting or going away. *)
Inductive event :=
| PostRegister (now : Z) (fault : option error) (decoded : option Instance)
| PostHeartbeat (now : Z) (fault : option error) (decoded : option (string * string))
| GetLookup (now : Z) (fault fault_all : option error) (raw : list (string * string))
| CleanupTick (now : Z) (fault : option error)
| WsConnect (c : nat)
| WsDisconnect (c : nat).

(** [main] hands the same [heartbeatTTL] to [SetupRoutes] and to the
    cleanup goroutine. *)
Definition serve (s : Server) (e : event) : Server :=
  match e with
  | PostRegister now fault decoded => snd (register now fault decoded s)
  | PostHeartbeat now fault decoded => snd (heartbeat now fault decoded s)
  | GetLookup now fault fault_all raw =>
      snd (lookup heartbeatTTL now fault fault_all raw s)
  | CleanupTick now fault => cleanup_tick now fault s
  | WsConnect c => mkServer (registry s) (connect c (hub s))
  | WsDisconnect c => mkServer (registry s) (disconnect c (hub s))
  end.

Definition serve_all (events : list event) (s : Server) : Server :=
  foldl serve s events.

Definition new_server : Server := mkServer [] empty_hub.

(** The instances in the body of a lookup response. *)
Definition instances_of (j : json) : list Instance :=
  match j with
  | JArray l => l
  | _ => []
  end.

(* ===================================================================== *)
(** ** Vocabulary of the properties *)
(* ===================================================================== *)

(** The record has the key [(serviceName, id)]. *)
Definition has_key (serviceName id : string) (d : Instance) : Prop :=
  ServiceName d = serviceName ∧ ID d = id.

#[global] Instance has_key_dec serviceName id d : Decision (has_key serviceName id d).
Proof. unfold has_key. apply _. Defined.

(** The composite key of a record, and the collections in which no two
    records share a key. *)
Definition key (d : Instance) : string * string := (ServiceName d, ID d).

Definition unique_keys (c : collection) : Prop := NoDup (key <$> c).


(** The record [UpdateHeartbeat] leaves in place of [old]: the date is
    the clock reading as the collection holds it. *)
Definition touched (now : Z) (old : Instance) : Instance :=
  mkInstance (ServiceName old) (ID old) (Host old) (Port old) (Mode old)
             (Metadata_ old) "UP" (DateTime now).

(** The record [Register] stores for a payload: the payload with the two
    server-assigned fields. *)
Definition stamped (now : Z) (inst : Instance) : Instance :=
  mkInstance (ServiceName inst) (ID inst) (Host inst) (Port inst) (Mode inst)
             (Metadata_ inst) "UP" (DateTime now).

(** A metadata constraint [metadata.<k> = v] holds of a record. *)
Definition metadata_holds (k : string) (v : value) (d : Instance) : Prop :=
  holds (CEq v) (at_path ("metadata." +:+ k) (marshal d)) = true.

(** The part of a lookup filter that does not concern liveness. *)
Definition selected (serviceName mode : string) (metadata : gmap string value)
           (d : Instance) : Prop :=
  (serviceName = "" ∨ ServiceName d = serviceName)
  ∧ (mode = "" ∨ Mode d = mode)
  ∧ (∀ k v, metadata !! k = Some v → metadata_holds k v d).

(** The state of a server that has only been reached through requests:
    keys are unique, every stored record passed validation and has
    [health = "UP"], and nothing has been written to any WebSocket. *)
Definition reachable_inv (s : Server) : Prop :=
  unique_keys (registry s)
  ∧ Forall (λ d, Health d = "UP" ∧ validInstance d = true) (registry s)
  ∧ ∀ c, sent (conns (hub s) c) = [].

(** The heartbeat goroutine of the Go client over a sequence of ticks,
    each with its time and the fault (if any) of the store at that time. *)
Definition run_ticks (ticks : list (Z * option error)) (cs : sdk.Client * Server)
  : sdk.Client * Server :=
  foldl (λ cs t, sdk.heartbeat_tick t.1 t.2 cs) cs ticks.

(** What happens to a running client and its server: the heartbeat ticker
    of the client fires (the store working), or the cleanup ticker of the
    server does. *)
Inductive tick :=
| Beat (now : Z)
| Sweep (now : Z) (fault : option error).

Definition run_tick (cs : sdk.Client * Server) (e : tick) : sdk.Client * Server :=
  match e with
  | Beat now => sdk.heartbeat_tick now None cs
  | Sweep now fault => (fst cs, cleanup_tick now fault (snd cs))
  end.

Definition run (events : list tick) (cs : sdk.Client * Server) : sdk.Client * Server :=
  foldl run_tick cs events.

(** Every sweep comes no later than [heartbeatTTL] after the heartbeat (or
    the registration, at [last]) before it. *)
Fixpoint in_time (last : Z) (events : list tick) : bool :=
  match events with
  | [] => true
  | Beat now :: rest => in_time now rest
  | Sweep now _ :: rest => (now - heartbeatTTL <=? last) && in_time last rest
  end.

(** The time of the last heartbeat, [last] being that of the registration. *)
Fixpoint last_beat (last : Z) (events : list tick) : Z :=
  match events with
  | [] => last
  | Beat now :: rest => last_beat now rest
  | Sweep _ _ :: rest => last_beat last rest
  end.

(** Consecutive calls of the dashboard's [attemptReconnect], none of the
    connections opening in between: the delays scheduled, and the state. *)
Fixpoint reconnects (n : nat) (d : ui.Dashboard) : list (option Z) * ui.Dashboard :=
  match n with
  | O => ([], d)
  | S n =>
      let '(delay, d) := ui.attemptReconnect d in
      let '(delays, d) := reconnects n d in
      (delay :: delays, d)
  end.

(** The filter of [Find] before its [range metadata] loop. *)
Definition base_filter (serviceName mode : string) : gmap string cond :=
  let flt : gmap string cond := ∅ in
  let flt := if negb (String.eqb serviceName "")
             then <["serviceName" := CEq (BString serviceName)]> flt else flt in
  if negb (String.eqb mode "")
  then <["mode" := CEq (BString mode)]> flt else flt.

#[global] Instance metadata_prefix_inj : Inj (=) (=) (String.append "metadata.") :=
  String.app_inj "metadata.".

(** The values of a key in a query string, in order of appearance. *)
Definition values_of (key : string) (raw : list (string * string)) : list string :=
  snd <$> List.filter (λ kv, String.eqb kv.1 key) raw.

(** The registration of the specification's scenario, as the JSON decoder
    delivers it (no [health], no [lastHeartbeat] in the body). *)
Definition order_o1 : Instance :=
  mkInstance "order-service" "o1" "127.0.0.1" 8080 "dev"
             (mkMetadata "dev" "us-east" 1 "" false) "" 0.

Definition payment_p1 : Instance :=
  mkInstance "payment-service" "p1" "10.0.0.7" 9090 "prod"
             (mkMetadata "prod" "eu-west" 2 "john" true) "" 0.

(** The filter document the lookup handler hands to the collection. *)
Definition lookup_filter (ttl now : Z) (raw : list (string * string)) : gmap string cond :=
  let q := URL_Query raw in
  find_filter now (Query q "service") (Query q "mode") (lookup_metadata q) true ttl.

(** A connection on which a write succeeds. *)
Definition writable (st : ConnState) : bool := negb (broken st || closed st).

(** What a broadcast of [msg] makes of the hub [h]: a subscriber that
    cannot be written to is closed and leaves the set, every other
    subscriber stays and has received [msg] once, at the end of what it had
    received; connections outside the set are untouched. *)
Definition broadcast_outcome (msg : ServiceUpdate) (h h' : Hub) : Prop :=
  (∀ c, c ∈ clients h → writable (conns h c) = false →
        (c ∉ clients h')
        ∧ conns h' c = mkConnState (broken (conns h c)) true (sent (conns h c)))
  ∧ (∀ c, c ∈ clients h → writable (conns h c) = true →
          c ∈ clients h'
          ∧ conns h' c = mkConnState (broken (conns h c)) (closed (conns h c))
                                     (sent (conns h c) ++ [msg]))
  ∧ (∀ c, c ∉ clients h → (c ∉ clients h') ∧ conns h' c = conns h c).

(** Three subscribers, the second of which has a broken connection. *)
Definition three_clients : Hub :=
  mkHub {[1%nat; 2%nat; 3%nat]}
        (<[2%nat := mkConnState true false []]> (λ _, fresh_conn)).

(* ===================================================================== *)
(** ** BSON: equality, paths, marshalling *)
(* ===================================================================== *)

Section date_facts.

(** Rounding an instant down to the millisecond moves it back by less
    than a millisecond. *)
Lemma DateTime_bounds t : t - Millisecond < DateTime t ≤ t.
Proof.
  unfold DateTime, Millisecond.
  pose proof (Z.div_mod t 1000000 ltac:(lia)).
  pose proof (Z.mod_pos_bound t 1000000 ltac:(lia)). lia.
Qed.

Lemma DateTime_whole t : DateTime (DateTime t) = DateTime t.
Proof.
  unfold DateTime, Millisecond. by rewrite Z.div_mul.
Qed.

Lemma DateTime_mono a b : a ≤ b → DateTime a ≤ DateTime b.
Proof.
  intros H. unfold DateTime, Millisecond.
  apply Z.mul_le_mono_nonneg_r; [lia|]. by apply Z.div_le_mono.
Qed.

(** A whole millisecond is at most an instant exactly when it is at most
    the instant rounded down. *)
Lemma DateTime_le_iff a b : DateTime a ≤ DateTime b ↔ DateTime a ≤ b.
Proof.
  split.
  - pose proof (DateTime_bounds b). lia.
  - intros H%DateTime_mono. by rewrite DateTime_whole in H.
Qed.

Lemma DateTime_lt_iff a b : DateTime b < DateTime a ↔ b < DateTime a.
Proof. pose proof (DateTime_le_iff a b). lia. Qed.

End date_facts.

Section bson_facts.

Lemma value_eqb_string s w : value_eqb (BString s) w = true ↔ w = BString s.
Proof.
  destruct w; simpl; try (split; [discriminate | congruence]).
  rewrite String.eqb_eq. split; congruence.
Qed.

Lemma value_eqb_bool b w : value_eqb (BBool b) w = true ↔ w = BBool b.
Proof.
  destruct w as [| |b'| |]; simpl; try (split; [discriminate | congruence]).
  destruct b, b'; simpl; split; congruence.
Qed.

Lemma split_dot_cons s : ∃ h t, split_dot s = h :: t.
Proof.
  induction s as [|c s IH]; simpl; [by eauto|].
  destruct (Ascii.eqb c "."); [by eauto|].
  destruct (split_dot s); by eauto.
Qed.

Lemma split_dot_metadata k :
  split_dot ("metadata." +:+ k) = "metadata" :: split_dot k.
Proof. reflexivity. Qed.

(** A [metadata.<k>] path is resolved inside the embedded document. *)
Lemma at_path_metadata k d :
  at_path ("metadata." +:+ k) (marshal d)
  = lookup_path (split_dot k) (BDocument (marshalMetadata (Metadata_ d))).
Proof. unfold at_path. rewrite split_dot_metadata. reflexivity. Qed.

Lemma at_path_serviceName d :
  at_path "serviceName" (marshal d) = Some (BString (ServiceName d)).
Proof. reflexivity. Qed.

Lemma at_path_id d : at_path "id" (marshal d) = Some (BString (ID d)).
Proof. reflexivity. Qed.

Lemma at_path_mode d : at_path "mode" (marshal d) = Some (BString (Mode d)).
Proof. reflexivity. Qed.

Lemma at_path_lastHeartbeat d :
  at_path "lastHeartbeat" (marshal d) = Some (BDateTime (DateTime (LastHeartbeat d))).
Proof. reflexivity. Qed.

Lemma unmarshal_marshal_Metadata m m0 :
  unmarshalMetadata (marshalMetadata m) m0 = m.
Proof. by destruct m. Qed.

(** [$set] with a whole marshalled instance overwrites every field, the
    date with the date as BSON holds it. *)
Lemma apply_set_marshal inst old :
  apply_set (marshal inst) old = setLastHeartbeat (DateTime (LastHeartbeat inst)) inst.
Proof. destruct inst as [? ? ? ? ? []]. reflexivity. Qed.

Lemma apply_set_heartbeat now old :
  apply_set [("lastHeartbeat", BDateTime (DateTime now)); ("health", BString "UP")] old
  = touched now old.
Proof. reflexivity. Qed.

Lemma apply_set_stamped now inst old :
  apply_set (marshal (setHealth "UP" (setLastHeartbeat now inst))) old = stamped now inst.
Proof. by rewrite apply_set_marshal. Qed.

End bson_facts.

(* ===================================================================== *)
(** ** The driver calls *)
(* ===================================================================== *)

Section mongo_facts.

Lemma matches_spec flt d :
  matches flt d = true
  ↔ ∀ path c, flt !! path = Some c → holds c (at_path path (marshal d)) = true.
Proof. unfold matches. by rewrite bool_decide_eq_true. Qed.

(** The filter [{"serviceName": s, "id": i}] selects the records with
    that key. *)
Lemma matches_key s i d :
  matches {[ "serviceName" := CEq (BString s); "id" := CEq (BString i) ]} d = true
  ↔ has_key s i d.
Proof.
  rewrite matches_spec. unfold has_key. split.
  - intros H. split.
    + specialize (H "serviceName" (CEq (BString s))).
      rewrite lookup_insert_eq in H. specialize (H eq_refl).
      rewrite at_path_serviceName in H. simpl in H.
      apply String.eqb_eq in H. done.
    + specialize (H "id" (CEq (BString i))).
      rewrite lookup_insert_ne, lookup_singleton_eq in H by done.
      specialize (H eq_refl). rewrite at_path_id in H. simpl in H.
      apply String.eqb_eq in H. done.
  - intros [Hs Hi] path c Hl.
    apply lookup_insert_Some in Hl as [[<- <-]|[_ Hl]].
    + rewrite at_path_serviceName. simpl. by apply String.eqb_eq.
    + apply lookup_singleton_Some in Hl as [<- <-].
      rewrite at_path_id. simpl. by apply String.eqb_eq.
Qed.

Lemma not_matches_key s i d :
  matches {[ "serviceName" := CEq (BString s); "id" := CEq (BString i) ]} d = false
  ↔ ¬ has_key s i d.
Proof. rewrite <-matches_key. by destruct (matches _ d). Qed.

(** [update_first] rewrites the first matching document and nothing
    else. *)
Lemma update_first_cases flt set c :
  (Forall (λ d, matches flt d = false) c ∧ update_first flt set c = None)
  ∨ (∃ l1 old l2,
        c = l1 ++ old :: l2
        ∧ Forall (λ d, matches flt d = false) l1
        ∧ matches flt old = true
        ∧ update_first flt set c = Some (old, l1 ++ apply_set set old :: l2)).
Proof.
  induction c as [|d c IH]; simpl.
  - left. by split.
  - destruct (matches flt d) eqn:Hd.
    + right. exists [], d, c. by repeat split.
    + destruct IH as [[Hall ->]|(l1 & old & l2 & -> & Hall & Hold & ->)].
      * left. split; [by constructor | done].
      * right. exists (d :: l1), old, l2. repeat split; [by constructor | done].
Qed.

Lemma filter_matches_lt now ttl d :
  matches {[ "lastHeartbeat" := CLt (DateTime (now + - ttl)) ]} d
  = bool_decide (LastHeartbeat d < DateTime (now - ttl)).
Proof.
  replace (now + - ttl) with (now - ttl) by lia.
  apply eq_true_iff_eq. rewrite matches_spec, bool_decide_eq_true.
  rewrite <-DateTime_lt_iff. split.
  - intros H. specialize (H "lastHeartbeat" _ (lookup_singleton_eq _ _)).
    rewrite at_path_lastHeartbeat in H. simpl in H. lia.
  - intros H path c [<- <-]%lookup_singleton_Some.
    rewrite at_path_lastHeartbeat. simpl. lia.
Qed.

End mongo_facts.

(* ===================================================================== *)
(** ** The repository *)
(* ===================================================================== *)

Section repository_facts.

Lemma Register_cases now inst c :
  (Forall (λ d, ¬ has_key (ServiceName inst) (ID inst) d) c
   ∧ Register now None inst c = (None, c ++ [stamped now inst]))
  ∨ (∃ l1 old l2,
        c = l1 ++ old :: l2
        ∧ Forall (λ d, ¬ has_key (ServiceName inst) (ID inst) d) l1
        ∧ has_key (ServiceName inst) (ID inst) old
        ∧ Register now None inst c = (None, l1 ++ stamped now inst :: l2)).
Proof.
  unfold Register. cbv zeta.
  change (ServiceName (setHealth "UP" (setLastHeartbeat now inst))) with (ServiceName inst).
  change (ID (setHealth "UP" (setLastHeartbeat now inst))) with (ID inst).
  unfold UpdateOne.
  match goal with |- context [update_first ?f ?s c] =>
    destruct (update_first_cases f s c)
      as [[Hall ->]|(l1 & old & l2 & -> & Hall & Hold & ->)] end.
  - left. split.
    + eapply List.Forall_impl; [|exact Hall]. intros d. by rewrite not_matches_key.
    + by rewrite apply_set_stamped.
  - right. exists l1, old, l2. rewrite apply_set_stamped. repeat split.
    + eapply List.Forall_impl; [|exact Hall]. intros d. by rewrite not_matches_key.
    + by apply matches_key in Hold as [??].
    + by apply matches_key in Hold as [??].
Qed.

End repository_facts.

Section key_facts.

Lemma has_key_key s i d : has_key s i d ↔ key d = (s, i).
Proof. unfold has_key, key. split; [by intros [-> ->] | by intros [= -> ->]]. Qed.




Lemma not_key_not_in s i l :
  (s, i) ∉ key <$> l ↔ Forall (λ d, ¬ has_key s i d) l.
Proof.
  rewrite List.Forall_forall, list_elem_of_fmap. split.
  - intros H d Hd Hk. apply H. exists d. split; [|by apply list_elem_of_In].
    symmetry. by apply has_key_key.
  - intros H (d & Hk & Hd). apply list_elem_of_In in Hd.
    apply (H d Hd). by apply has_key_key.
Qed.


Lemma unique_keys_replace l1 old new l2 :
  key new = key old → unique_keys (l1 ++ old :: l2) → unique_keys (l1 ++ new :: l2).
Proof. unfold unique_keys. rewrite !fmap_app, !fmap_cons. by intros ->. Qed.

Lemma unique_keys_snoc c new :
  Forall (λ d, ¬ has_key (ServiceName new) (ID new) d) c →
  unique_keys c → unique_keys (c ++ [new]).
Proof.
  unfold unique_keys. rewrite fmap_app. intros Hall Hnd.
  apply NoDup_app. split; [done|]. split; [|apply NoDup_singleton].
  intros k Hk Hin. apply list_elem_of_singleton in Hin. subst k.
  by apply (not_key_not_in (ServiceName new) (ID new) c) in Hall.
Qed.

Lemma unique_keys_filter (p : Instance → bool) c :
  unique_keys c → unique_keys (List.filter p c).
Proof.
  unfold unique_keys. induction c as [|d c IH]; simpl; [done|].
  rewrite NoDup_cons. intros [Hd Hnd]. destruct (p d); simpl; [|by auto].
  apply NoDup_cons. split; [|by auto].
  intros Hin. apply Hd. apply list_elem_of_fmap in Hin as (x & -> & Hx).
  apply list_elem_of_fmap. exists x. split; [done|].
  apply list_elem_of_In. apply list_elem_of_In in Hx. by apply List.filter_In in Hx as [??].
Qed.

End key_facts.

(* ===================================================================== *)
(** ** Register *)
(* ===================================================================== *)



(* ===================================================================== *)
(** ** UpdateHeartbeat *)
(* ===================================================================== *)


(* ===================================================================== *)
(** ** CleanupDead *)
(* ===================================================================== *)

Lemma sweep_filter now ttl c :
  List.filter (λ d, negb (matches {[ "lastHeartbeat" := CLt (DateTime (now + - ttl)) ]} d)) c
  = List.filter (λ d, bool_decide (DateTime (now - ttl) ≤ LastHeartbeat d)) c.
Proof.
  apply List.filter_ext. intros d. rewrite filter_matches_lt.
  destruct (decide (LastHeartbeat d < DateTime (now - ttl))).
  - rewrite bool_decide_eq_true_2, bool_decide_eq_false_2 by lia. done.
  - rewrite bool_decide_eq_false_2, bool_decide_eq_true_2 by lia. done.
Qed.

(** C4, as the specification states it, fails within the last millisecond:
    the cutoff reaches the collection as a BSON date, rounded down.  A
    record last seen at 5 s is still there after a sweep at 35 s + 500 ns
    with a TTL of 30 s, although its [lastHeartbeat] is before the cutoff
    [now - ttl] = 5 s + 500 ns. *)
Lemma CleanupDead_keeps_last_millisecond :
  let now := 35 * Second + 500 in
  let d := stamped (5 * Second) order_o1 in
  let c' := snd (CleanupDead now None heartbeatTTL [d]) in
  d ∈ c' ∧ LastHeartbeat d < now - heartbeatTTL
  ∧ ¬ (∀ x, x ∈ c' → ¬ LastHeartbeat x < now - heartbeatTTL).
Proof.
  assert (H : stamped (5 * Second) order_o1
              ∈ snd (CleanupDead (35 * Second + 500) None heartbeatTTL
                                 [stamped (5 * Second) order_o1])).
  { vm_compute. left. }
  cbv zeta. split; [exact H|]. split; [by vm_compute|].
  intros Hall. apply (Hall _ H). by vm_compute.
Qed.

(** C4.  The sweep at time [now], when the store does not fail.  Its
    cutoff [now - ttl] reaches the collection as a BSON date [C], the
    cutoff rounded down to the millisecond.  The sweep returns no error;
    what remains is the collection restricted to the records with
    [lastHeartbeat >= C], the same records in the same order; so no record
    with [lastHeartbeat < C] remains, every record with
    [lastHeartbeat >= C], hence every record with
    [lastHeartbeat >= now - ttl], is still there, a record that remains is
    less than a millisecond older than [now - ttl], and when no record is
    older than [C] the collection is unchanged.  The ticker of [main] does
    this with [heartbeatTTL] and leaves the hub alone. *)
Theorem CleanupDead_sweep (now ttl : Z) (c : collection) :
  let C := DateTime (now - ttl) in
  let c' := snd (CleanupDead now None ttl c) in
  fst (CleanupDead now None ttl c) = None
  ∧ c' = List.filter (λ d, bool_decide (C ≤ LastHeartbeat d)) c
  ∧ (∀ d, d ∈ c' → d ∈ c ∧ ¬ LastHeartbeat d < C
                   ∧ now - ttl - Millisecond < LastHeartbeat d)
  ∧ (∀ d, d ∈ c → C ≤ LastHeartbeat d → d ∈ c')
  ∧ (∀ d, d ∈ c → now - ttl ≤ LastHeartbeat d → d ∈ c')
  ∧ (Forall (λ d, C ≤ LastHeartbeat d) c → c' = c)
  ∧ (∀ s, cleanup_tick now None s
          = mkServer (List.filter
                        (λ d, bool_decide (DateTime (now - heartbeatTTL) ≤ LastHeartbeat d))
                        (registry s))
                     (hub s)).
Proof.
  intros C c'.
  assert (Hc' : ∀ t l, snd (CleanupDead now None t l)
                = List.filter (λ d, bool_decide (DateTime (now - t) ≤ LastHeartbeat d)) l).
  { intros t l. unfold CleanupDead, DeleteMany. simpl. apply sweep_filter. }
  pose proof (DateTime_bounds (now - ttl)) as HC. fold C in HC.
  split; [done|]. split; [apply Hc'|]. subst c'. rewrite Hc'.
  split; [|split; [|split; [|split]]].
  - intros d Hd%list_elem_of_In%List.filter_In. destruct Hd as [Hin Hd].
    apply bool_decide_eq_true in Hd. split; [by apply list_elem_of_In|]. lia.
  - intros d Hd Hlive. apply list_elem_of_In, List.filter_In.
    split; [by apply list_elem_of_In|]. by apply bool_decide_eq_true.
  - intros d Hd Hlive. apply list_elem_of_In, List.filter_In.
    split; [by apply list_elem_of_In|]. apply bool_decide_eq_true. lia.
  - intros Hall. induction Hall as [|d l Hd _ IH]; simpl; [done|].
    rewrite bool_decide_eq_true_2 by done. by rewrite IH.
  - intros s. unfold cleanup_tick. by rewrite Hc'.
Qed.

Lemma CleanupDead_sweep_witness :
  let now := 130 * Second + 999999 in
  let c := [stamped (100 * Second + 250) order_o1; stamped (120 * Second) payment_p1] in
  Forall (λ d, DateTime (now - heartbeatTTL) ≤ LastHeartbeat d) c
  ∧ snd (CleanupDead now None heartbeatTTL c) = c.
Proof.
  cbv zeta.
  assert (H : Forall (λ d, DateTime (130 * Second + 999999 - heartbeatTTL) ≤ LastHeartbeat d)
                     [stamped (100 * Second + 250) order_o1;
                      stamped (120 * Second) payment_p1]).
  { repeat constructor; by vm_compute. }
  split; [exact H|].
  pose proof (CleanupDead_sweep (130 * Second + 999999) heartbeatTTL
                [stamped (100 * Second + 250) order_o1;
                 stamped (120 * Second) payment_p1]) as T.
  cbv zeta in T. destruct T as (_ & _ & _ & _ & _ & T & _).
  exact (T H).
Defined.

(* ===================================================================== *)
(** ** Find: the filter document *)
(* ===================================================================== *)

Section find_facts.

Lemma metadata_path_fresh k :
  "metadata." +:+ k ≠ "serviceName"
  ∧ "metadata." +:+ k ≠ "mode"
  ∧ "metadata." +:+ k ≠ "lastHeartbeat".
Proof. simpl. repeat split; discriminate. Qed.

(** The [range metadata] loop adds one entry per key and keeps the
    entries that were there. *)
Lemma metadata_fold (base : gmap string cond) (md : gmap string value) :
  map_fold (λ k v acc, <["metadata." +:+ k := CEq v]> acc) base md
  = kmap (M2 := gmap string) (String.append "metadata.") (CEq <$> md) ∪ base.
Proof.
  apply (map_fold_weak_ind
           (λ r m, r = kmap (M2 := gmap string) (String.append "metadata.")
                            (CEq <$> m) ∪ base)).
  - by rewrite fmap_empty, kmap_empty, (left_id_L ∅ (∪)).
  - intros k v m r _ ->. rewrite fmap_insert, kmap_insert; [|apply _].
    by rewrite insert_union_l.
Qed.

Lemma base_filter_lookup sn mode p c :
  base_filter sn mode !! p = Some c
  ↔ (p = "serviceName" ∧ sn ≠ "" ∧ c = CEq (BString sn))
    ∨ (p = "mode" ∧ mode ≠ "" ∧ c = CEq (BString mode)).
Proof.
  unfold base_filter. cbv zeta.
  destruct (String.eqb_spec sn ""), (String.eqb_spec mode ""); simpl;
    rewrite ?lookup_insert_Some, ?lookup_empty; intuition congruence.
Qed.

Lemma find_filter_lookup now sn mode md alive ttl p c :
  find_filter now sn mode md alive ttl !! p = Some c
  ↔ (p = "lastHeartbeat" ∧ alive = true ∧ c = CGte (DateTime (now + - ttl)))
    ∨ (∃ k v, p = "metadata." +:+ k ∧ md !! k = Some v ∧ c = CEq v)
    ∨ (p = "serviceName" ∧ sn ≠ "" ∧ c = CEq (BString sn))
    ∨ (p = "mode" ∧ mode ≠ "" ∧ c = CEq (BString mode)).
Proof.
  unfold find_filter. cbv zeta. rewrite metadata_fold.
  fold (base_filter sn mode).
  assert (Hin : ∀ q x,
    (kmap (M2 := gmap string) (String.append "metadata.") (CEq <$> md)
       ∪ base_filter sn mode) !! q = Some x
    ↔ (∃ k v, q = "metadata." +:+ k ∧ md !! k = Some v ∧ x = CEq v)
      ∨ (q = "serviceName" ∧ sn ≠ "" ∧ x = CEq (BString sn))
      ∨ (q = "mode" ∧ mode ≠ "" ∧ x = CEq (BString mode))).
  { intros q x. rewrite lookup_union_Some_raw, lookup_kmap_Some, lookup_kmap_None by apply _.
    rewrite base_filter_lookup. setoid_rewrite lookup_fmap_Some.
    setoid_rewrite lookup_fmap. split.
    - intros [(k & -> & v & <- & Hk)|[_ H]]; [left; by eauto|by right].
    - intros [(k & v & -> & Hk & ->)|H]; [left; by eauto|right].
      split; [|done]. intros k ->.
      destruct (metadata_path_fresh k) as (? & ? & _).
      by destruct H as [[? _]|[? _]]. }
  destruct alive.
  - rewrite lookup_insert_Some, Hin. split.
    + intros [[<- <-]|[Hne H]]; [by left | by right].
    + intros [(-> & _ & ->)|H]; [by left|right]. split; [|done].
      intros <-. destruct H as [(k & v & Hp & _)|[[Hp _]|[Hp _]]];
        [|discriminate Hp..].
      symmetry in Hp. by apply metadata_path_fresh in Hp.
  - rewrite Hin. split; [by right|]. by intros [(_ & ? & _)|H].
Qed.

(** What [Find]'s filter asks of a record. *)
Lemma find_filter_matches now sn mode md alive ttl d :
  matches (find_filter now sn mode md alive ttl) d = true
  ↔ selected sn mode md d ∧ (alive = true → DateTime (now - ttl) ≤ LastHeartbeat d).
Proof.
  rewrite <-DateTime_le_iff.
  rewrite matches_spec. unfold selected, metadata_holds. split.
  - intros H. repeat split.
    + destruct (decide (sn = "")) as [|Hne]; [by left|right].
      specialize (H "serviceName" (CEq (BString sn))).
      rewrite find_filter_lookup, at_path_serviceName in H. simpl in H.
      symmetry. apply String.eqb_eq, H. right; right; by left.
    + destruct (decide (mode = "")) as [|Hne]; [by left|right].
      specialize (H "mode" (CEq (BString mode))).
      rewrite find_filter_lookup, at_path_mode in H. simpl in H.
      symmetry. apply String.eqb_eq, H. right; right; by right.
    + intros k v Hk. apply H, find_filter_lookup. right; left. by eauto.
    + intros ->. specialize (H "lastHeartbeat" (CGte (DateTime (now + - ttl)))).
      rewrite find_filter_lookup, at_path_lastHeartbeat in H. simpl in H.
      assert ((DateTime (now + - ttl) <=? DateTime (LastHeartbeat d)) = true)
        by (apply H; by left).
      replace (now + - ttl) with (now - ttl) in * by lia. lia.
  - intros ((Hs & Hm & Hmd) & Hlive) p c.
    rewrite find_filter_lookup.
    intros [(-> & Ha & ->)|[(k & v & -> & Hk & ->)|[(-> & Hne & ->)|(-> & Hne & ->)]]].
    + rewrite at_path_lastHeartbeat. simpl. specialize (Hlive Ha).
      replace (now + - ttl) with (now - ttl) by lia. lia.
    + by apply Hmd.
    + rewrite at_path_serviceName. simpl. apply String.eqb_eq.
      by destruct Hs as [?|<-].
    + rewrite at_path_mode. simpl. apply String.eqb_eq.
      by destruct Hm as [?|<-].
Qed.

End find_facts.

(* ===================================================================== *)
(** ** The query string of the lookup handler *)
(* ===================================================================== *)

Section query_facts.

Lemma values_of_cons k k' v raw :
  values_of k ((k', v) :: raw)
  = if String.eqb k' k then v :: values_of k raw else values_of k raw.
Proof. unfold values_of. simpl. by destruct (String.eqb k' k). Qed.

Lemma URL_Query_fold raw (m : gmap string (list string)) k :
  foldl (λ m kv, <[kv.1 := default [] (m !! kv.1) ++ [kv.2]]> m) m raw !! k
  = match values_of k raw with
    | [] => m !! k
    | vs => Some (default [] (m !! k) ++ vs)
    end.
Proof.
  revert m. induction raw as [|[k' v] raw IH]; intros m; [done|].
  rewrite values_of_cons. simpl foldl. rewrite IH.
  destruct (String.eqb_spec k' k) as [->|Hne].
  - rewrite lookup_insert_eq. simpl.
    destruct (values_of k raw); [done|]. by rewrite <-app_assoc.
  - by rewrite lookup_insert_ne.
Qed.

(** [url.Values] holds, for every key of the query string, its values in
    order of appearance. *)
Lemma URL_Query_lookup raw k :
  URL_Query raw !! k
  = match values_of k raw with [] => None | vs => Some vs end.
Proof. unfold URL_Query. rewrite URL_Query_fold, lookup_empty. done. Qed.

(** No key of [url.Values] has an empty list: [vals[0]] is in range. *)
Lemma URL_Query_nonempty raw k vals :
  URL_Query raw !! k = Some vals → vals ≠ [].
Proof. rewrite URL_Query_lookup. destruct (values_of k raw); congruence. Qed.

Lemma Query_first raw k :
  Query (URL_Query raw) k = hd "" (values_of k raw).
Proof. unfold Query. rewrite URL_Query_lookup. by destruct (values_of k raw). Qed.

Lemma lookup_metadata_lookup (q : gmap string (list string)) k :
  lookup_metadata q !! k
  = if String.eqb k "service" || String.eqb k "mode" then None
    else (λ vals, parseString (hd "" vals)) <$> q !! k.
Proof.
  unfold lookup_metadata. revert k.
  apply (map_fold_weak_ind (λ r (m : gmap string (list string)), ∀ k,
    r !! k = if String.eqb k "service" || String.eqb k "mode" then None
             else (λ vals, parseString (hd "" vals)) <$> m !! k)).
  - intros k. rewrite !lookup_empty. by destruct (_ || _).
  - intros i x m r Hi IH k.
    destruct (decide (i = k)) as [->|Hne].
    + rewrite lookup_insert_eq.
      destruct (String.eqb k "service" || String.eqb k "mode") eqn:Hk.
      * rewrite IH, Hk. done.
      * by rewrite lookup_insert_eq.
    + rewrite (lookup_insert_ne m) by done.
      destruct (String.eqb i "service" || String.eqb i "mode"); [apply IH|].
      rewrite lookup_insert_ne by done. apply IH.
Qed.

Lemma parseString_true : parseString "true" = BBool true.
Proof. reflexivity. Qed.

Lemma parseString_false : parseString "false" = BBool false.
Proof. reflexivity. Qed.

Lemma parseString_other s :
  s ≠ "true" → s ≠ "false" → parseString s = BString s.
Proof.
  intros Ht Hf. unfold parseString.
  destruct (String.eqb_spec s "true"); [done|].
  by destruct (String.eqb_spec s "false").
Qed.

(** The response of the lookup handler when the store does not fail. *)
Lemma lookup_response ttl now raw s :
  lookup ttl now None None raw s
  = (mkResponse StatusOK
       (json_of_slice
          (match List.filter (matches (lookup_filter ttl now raw)) (registry s) with
           | [] => NilSlice
           | l => Slice l
           end)), s).
Proof.
  unfold lookup, Find, mongo.Find, All. cbv zeta. fold (lookup_filter ttl now raw).
  by destruct (List.filter _ _).
Qed.

End query_facts.

(* ===================================================================== *)
(** ** Find: liveness *)
(* ===================================================================== *)

Lemma Find_elems now sn mode md alive ttl c :
  ∃ res, Find now None None sn mode md alive ttl c = (res, None)
         ∧ elems res = List.filter (matches (find_filter now sn mode md alive ttl)) c.
Proof.
  unfold Find, mongo.Find, All. cbv zeta.
  destruct (List.filter _ c) eqn:E; by eexists.
Qed.

Lemma alive_filter_split now sn mode md ttl d :
  matches (find_filter now sn mode md true ttl) d
  = matches (find_filter now sn mode md false ttl) d
    && bool_decide (DateTime (now - ttl) ≤ LastHeartbeat d).
Proof.
  apply eq_true_iff_eq.
  rewrite andb_true_iff, bool_decide_eq_true, !find_filter_matches.
  split.
  - intros [Hs Hl]. split; [split; [done|by intros [=]]|by apply Hl].
  - intros [[Hs _] Hl]. by split.
Qed.


(** C3, as the specification states it, fails within the last millisecond:
    the cutoff reaches the collection as a BSON date, rounded down.  A
    record last seen at 5 s is returned by an alive-only [Find] (and by the
    lookup handler) at 35 s + 500 ns with a TTL of 30 s, although its
    [lastHeartbeat] is strictly older than [now - ttl] = 5 s + 500 ns. *)
Lemma Find_returns_last_millisecond :
  let now := 35 * Second + 500 in
  let d := stamped (5 * Second) order_o1 in
  Find now None None "order-service" "" ∅ true heartbeatTTL [d] = (Slice [d], None)
  ∧ lookup heartbeatTTL now None None [("service", "order-service")]
           (mkServer [d] empty_hub)
    = (mkResponse StatusOK (JArray [d]), mkServer [d] empty_hub)
  ∧ LastHeartbeat d < now - heartbeatTTL
  ∧ ¬ (∀ x, x ∈ elems (fst (Find now None None "order-service" "" ∅ true heartbeatTTL [d])) →
            ¬ LastHeartbeat x < now - heartbeatTTL).
Proof.
  cbv zeta.
  assert (H : Find (35 * Second + 500) None None "order-service" "" ∅ true heartbeatTTL
                   [stamped (5 * Second) order_o1]
              = (Slice [stamped (5 * Second) order_o1], None)) by (by vm_compute).
  split; [exact H|]. split; [by vm_compute|]. split; [by vm_compute|].
  rewrite H. intros Hall. apply (Hall (stamped (5 * Second) order_o1)); [left|].
  by vm_compute.
Qed.

(** C3.  An alive-only [Find] at time [now], when the store does not fail.
    Its cutoff [now - ttl] reaches the collection as a BSON date [C], the
    cutoff rounded down to the millisecond.  [Find] returns the records
    that satisfy the rest of the filter (service name, mode, metadata) and
    whose [lastHeartbeat] is at least [C]: none that is strictly older than
    [C], every one that is not.  So every matching record whose
    [lastHeartbeat] is at least [now - ttl] is returned, the boundary
    [now - ttl] included, and a record that is returned is less than a
    millisecond older than [now - ttl].  The lookup handler always asks for
    alive-only with [heartbeatTTL]. *)
Theorem Find_alive_only (now ttl : Z) (sn mode : string)
        (md : gmap string value) (c : collection) :
  let C := DateTime (now - ttl) in
  (∃ res,
      Find now None None sn mode md true ttl c = (res, None)
      ∧ elems res
        = List.filter (λ d, matches (find_filter now sn mode md false ttl) d
                            && bool_decide (C ≤ LastHeartbeat d)) c
      ∧ (∀ d, d ∈ elems res ↔ d ∈ c ∧ selected sn mode md d ∧ C ≤ LastHeartbeat d)
      ∧ (∀ d, d ∈ elems res →
              ¬ LastHeartbeat d < C ∧ now - ttl - Millisecond < LastHeartbeat d)
      ∧ (∀ d, d ∈ c → selected sn mode md d → now - ttl ≤ LastHeartbeat d →
              d ∈ elems res)
      ∧ (∀ d, d ∈ c → selected sn mode md d → LastHeartbeat d = now - ttl →
              d ∈ elems res))
  ∧ (∀ raw s,
       let q := URL_Query raw in
       lookup ttl now None None raw s
       = (mkResponse StatusOK
            (json_of_slice
               (fst (Find now None None (Query q "service") (Query q "mode")
                          (lookup_metadata q) true ttl (registry s)))), s)).
Proof.
  intros C. pose proof (DateTime_bounds (now - ttl)) as HC. fold C in HC. split.
  - destruct (Find_elems now sn mode md true ttl c) as (res & Hres & Hel).
    exists res. split; [done|].
    assert (Hin : ∀ d, d ∈ elems res
                  ↔ d ∈ c ∧ selected sn mode md d ∧ C ≤ LastHeartbeat d).
    { intros d. rewrite Hel, !list_elem_of_In, List.filter_In, find_filter_matches.
      subst C. intuition. }
    split.
    { rewrite Hel. apply List.filter_ext. intros d. apply alive_filter_split. }
    split; [exact Hin|].
    split. { intros d Hd%Hin. lia. }
    split. { intros d ???. apply Hin. split; [done|]. split; [done|lia]. }
    intros d ?? Heq. apply Hin. split; [done|]. split; [done|lia].
  - intros raw s q. unfold lookup, q. cbv zeta.
    destruct (Find_elems now (Query (URL_Query raw) "service")
                (Query (URL_Query raw) "mode") (lookup_metadata (URL_Query raw))
                true ttl (registry s)) as (res & -> & _).
    done.
Qed.

Lemma Find_alive_only_witness :
  let now := 130 * Second in
  let c := [stamped (100 * Second + 250) order_o1; stamped (99 * Second) payment_p1] in
  let md : gmap string value := {[ "region" := BString "us-east" ]} in
  (stamped (100 * Second + 250) order_o1 ∈ c
   ∧ selected "order-service" "" md (stamped (100 * Second + 250) order_o1)
   ∧ LastHeartbeat (stamped (100 * Second + 250) order_o1) = now - heartbeatTTL)
  ∧ stamped (100 * Second + 250) order_o1
    ∈ elems (fst (Find now None None "order-service" "" md true heartbeatTTL c)).
Proof.
  intros now c md.
  assert (H1 : stamped (100 * Second + 250) order_o1 ∈ c) by (left).
  assert (H2 : selected "order-service" "" md (stamped (100 * Second + 250) order_o1)).
  { split; [by right|]. split; [by left|].
    intros k v [<- <-]%lookup_singleton_Some. reflexivity. }
  assert (H3 : LastHeartbeat (stamped (100 * Second + 250) order_o1) = now - heartbeatTTL)
    by (by vm_compute).
  split; [done|].
  destruct (Find_alive_only now heartbeatTTL "order-service" "" md c)
    as [(res & Hres & _ & _ & _ & _ & Hb) _].
  rewrite Hres. simpl fst. by apply Hb.
Defined.

(* ===================================================================== *)
(** ** The filter engine: coercion of query-string values *)
(* ===================================================================== *)

(** C9.  [parseString] turns exactly the tokens ["true"] and ["false"]
    into booleans and leaves every other value a string.  In the filter of
    the lookup handler, every parameter other than [service] and [mode]
    contributes the equality constraint [metadata.<key> = parseString v]
    on the first value [v] of the key, and the filter has no other
    [metadata.] entry.  The token ["2"] stays the string ["2"], which the
    integer field [metadata.version] of no record equals. *)
Theorem lookup_filter_coercion (ttl now : Z) (raw : list (string * string)) :
  parseString "true" = BBool true
  ∧ parseString "false" = BBool false
  ∧ (∀ s, s ≠ "true" → s ≠ "false" → parseString s = BString s)
  ∧ (∀ key v vs,
       key ≠ "service" → key ≠ "mode" → values_of key raw = v :: vs →
       lookup_filter ttl now raw !! ("metadata." +:+ key) = Some (CEq (parseString v)))
  ∧ (∀ key c,
       lookup_filter ttl now raw !! ("metadata." +:+ key) = Some c →
       key ≠ "service" ∧ key ≠ "mode"
       ∧ ∃ v vs, values_of key raw = v :: vs ∧ c = CEq (parseString v))
  ∧ (∀ s, lookup ttl now None None raw s
          = (mkResponse StatusOK
               (json_of_slice
                  (match List.filter (matches (lookup_filter ttl now raw)) (registry s) with
                   | [] => NilSlice
                   | l => Slice l
                   end)), s))
  ∧ parseString "2" = BString "2"
  ∧ (∀ d, ¬ metadata_holds "version" (parseString "2") d)
  ∧ (∀ d, metadata_holds "version" (BInt (Version (Metadata_ d))) d).
Proof.
  split; [done|]. split; [done|]. split; [apply parseString_other|].
  split.
  { intros key v vs Hs Hm Hv. unfold lookup_filter. cbv zeta.
    apply find_filter_lookup. right; left. exists key, (parseString v).
    split; [done|]. split; [|done].
    rewrite lookup_metadata_lookup, URL_Query_lookup, Hv.
    apply String.eqb_neq in Hs, Hm. by rewrite Hs, Hm. }
  split.
  { intros key c. unfold lookup_filter. cbv zeta. rewrite find_filter_lookup.
    intros [(Hp & _)|[(k & v & Hp & Hk & ->)|[(Hp & _)|(Hp & _)]]];
      try (by apply metadata_path_fresh in Hp).
    apply (inj _) in Hp. subst k.
    rewrite lookup_metadata_lookup, URL_Query_lookup in Hk.
    destruct (String.eqb_spec key "service"); [done|].
    destruct (String.eqb_spec key "mode"); [done|].
    simpl in Hk. destruct (values_of key raw) as [|v0 vs]; [done|].
    simpl in Hk. injection Hk as <-. by eauto 6. }
  split; [intros s; apply lookup_response|].
  split; [done|]. split.
  - intros d. unfold metadata_holds. rewrite at_path_metadata. simpl. done.
  - intros d. unfold metadata_holds. rewrite at_path_metadata. simpl.
    apply Z.eqb_refl.
Qed.

Lemma lookup_filter_coercion_witness :
  let raw := [("service", "order-service"); ("experimental", "true");
              ("version", "2"); ("experimental", "false")] in
  ("experimental" ≠ "service" ∧ "experimental" ≠ "mode"
   ∧ values_of "experimental" raw = ["true"; "false"])
  ∧ lookup_filter heartbeatTTL 0 raw !! "metadata.experimental"
    = Some (CEq (BBool true)).
Proof.
  intros raw.
  assert (H1 : "experimental" ≠ "service") by discriminate.
  assert (H2 : "experimental" ≠ "mode") by discriminate.
  assert (H3 : values_of "experimental" raw = ["true"; "false"]) by reflexivity.
  split; [done|].
  destruct (lookup_filter_coercion heartbeatTTL 0 raw) as (_ & _ & _ & T & _).
  exact (T "experimental" "true" ["false"] H1 H2 H3).
Defined.

(* ===================================================================== *)
(** ** The filter engine: empty service name and mode *)
(* ===================================================================== *)







(* ===================================================================== *)
(** ** GET /lookup with no match *)
(* ===================================================================== *)

(** C7.  When the filter of a lookup matches no record (and the store does
    not fail), [Find] returns the nil slice it declared, and the handler
    answers 200 with the JSON value [null], which is not the empty array. *)
Theorem lookup_no_match_null (ttl now : Z) (raw : list (string * string)) (s : Server) :
  List.filter (matches (lookup_filter ttl now raw)) (registry s) = [] →
  lookup ttl now None None raw s = (mkResponse StatusOK JNull, s)
  ∧ JNull ≠ JArray [].
Proof. intros H. rewrite lookup_response, H. by split. Qed.

Lemma lookup_no_match_null_witness :
  List.filter (matches (lookup_filter heartbeatTTL (130 * Second) [("service", "payment-service")]))
              (registry (mkServer [stamped (100 * Second) order_o1] empty_hub)) = []
  ∧ lookup heartbeatTTL (130 * Second) None None [("service", "payment-service")]
           (mkServer [stamped (100 * Second) order_o1] empty_hub)
    = (mkResponse StatusOK JNull, mkServer [stamped (100 * Second) order_o1] empty_hub).
Proof.
  assert (H : List.filter
                (matches (lookup_filter heartbeatTTL (130 * Second) [("service", "payment-service")]))
                (registry (mkServer [stamped (100 * Second) order_o1] empty_hub)) = [])
    by (vm_compute; reflexivity).
  split; [exact H|].
  exact (proj1 (lookup_no_match_null heartbeatTTL (130 * Second) [("service", "payment-service")]
                  (mkServer [stamped (100 * Second) order_o1] empty_hub) H)).
Defined.

(* ===================================================================== *)
(** ** POST /register: the response *)
(* ===================================================================== *)

(** C2, at a concrete request.  The registration is valid and answered
    200; the stored record has [health = "UP"] and [lastHeartbeat = now] (to
    the millisecond), but the body of the response is the request as
    decoded, here with the caller's [health = "DOWN"] and a date of its
    own: it is not the stored instance. *)
Lemma register_response_not_stored :
  let now := 100 * Second + 123456789 in
  let sent_body := setLastHeartbeat (7 * Second) (setHealth "DOWN" order_o1) in
  validInstance sent_body = true
  ∧ register now None (Some sent_body) (mkServer [] empty_hub)
    = (mkResponse StatusOK (JInstance sent_body),
       mkServer [stamped now order_o1] empty_hub)
  ∧ Health sent_body = "DOWN" ∧ Health (stamped now order_o1) = "UP"
  ∧ LastHeartbeat sent_body = 7 * Second
  ∧ LastHeartbeat (stamped now order_o1) = 100 * Second + 123000000
  ∧ fst (register now None (Some sent_body) (mkServer [] empty_hub))
    ≠ mkResponse StatusOK (JInstance (stamped now order_o1)).
Proof.
  cbv zeta.
  split; [reflexivity|]. split; [by vm_compute|]. split; [reflexivity|].
  split; [reflexivity|]. split; [reflexivity|]. split; [by vm_compute|].
  vm_compute. discriminate.
Qed.

(** C2.  What [POST /register] answers, against what the claim requires.
    For a valid registration and a store that does not fail, the handler
    answers 200 with the instance as decoded from the request body, not
    with the stored instance: [Register] stamped its own copy.  The
    [health] and [lastHeartbeat] of the response are the caller's (the
    empty string and the zero time when the body leaves them out), while
    the stored record has [health = "UP"] and [lastHeartbeat = now]; the
    response is the stored instance only when the caller happened to send
    these very values. *)
Theorem register_response (now : Z) (inst : Instance) (c : collection) (h : Hub) :
  validInstance inst = true →
  register now None (Some inst) (mkServer c h)
  = (mkResponse StatusOK (JInstance inst),
     mkServer (snd (Register now None inst c)) h)
  ∧ fst (Register now None inst c) = None
  ∧ stamped now inst ∈ snd (Register now None inst c)
  ∧ stamped now inst = setHealth "UP" (setLastHeartbeat (DateTime now) inst)
  ∧ (body (fst (register now None (Some inst) (mkServer c h))) = JInstance (stamped now inst)
     ↔ Health inst = "UP" ∧ LastHeartbeat inst = DateTime now).
Proof.
  intros Hv.
  assert (Hresp : register now None (Some inst) (mkServer c h)
                  = (mkResponse StatusOK (JInstance inst),
                     mkServer (snd (Register now None inst c)) h)
                  ∧ fst (Register now None inst c) = None
                  ∧ stamped now inst ∈ snd (Register now None inst c)).
  { unfold register, ShouldBindJSON. rewrite Hv. simpl registry. simpl hub.
    destruct (Register_cases now inst c)
      as [[_ ->]|(l1 & old & l2 & _ & _ & _ & ->)]; simpl.
    - repeat split. apply elem_of_app. right. by left.
    - repeat split. apply elem_of_app. right. by left. }
  destruct Hresp as (Hr & He & Hin).
  split; [exact Hr|]. split; [exact He|]. split; [exact Hin|]. split; [done|].
  rewrite Hr. simpl. unfold stamped. destruct inst; simpl. split.
  - intros [= -> ->]. done.
  - intros [-> ->]. done.
Qed.

Lemma register_response_witness :
  let now := 100 * Second + 123456789 in
  validInstance order_o1 = true
  ∧ register now None (Some order_o1) (mkServer [] empty_hub)
    = (mkResponse StatusOK (JInstance order_o1),
       mkServer [stamped now order_o1] empty_hub)
  ∧ Health order_o1 = "" ∧ LastHeartbeat order_o1 = 0
  ∧ Health (stamped now order_o1) = "UP"
  ∧ LastHeartbeat (stamped now order_o1) = 100 * Second + 123000000.
Proof.
  cbv zeta.
  assert (H : validInstance order_o1 = true) by reflexivity.
  split; [exact H|].
  split; [|by vm_compute].
  exact (proj1 (register_response (100 * Second + 123456789) order_o1 [] empty_hub H)).
Defined.

(* ===================================================================== *)
(** ** The handlers and the hub *)
(* ===================================================================== *)

(** C6, as stated, fails: with one writable subscriber connected, a
    registration and a heartbeat are both answered 200, and nothing has
    been written to the subscriber. *)
Lemma handlers_do_not_broadcast :
  let s0 := mkServer [] (connect 1 empty_hub) in
  let r1 := fst (register (100 * Second) None (Some order_o1) s0) in
  let s1 := snd (register (100 * Second) None (Some order_o1) s0) in
  let r2 := fst (heartbeat (110 * Second) None (Some ("order-service", "o1")) s1) in
  let s2 := snd (heartbeat (110 * Second) None (Some ("order-service", "o1")) s1) in
  1%nat ∈ clients (hub s0) ∧ writable (conns (hub s0) 1%nat) = true
  ∧ status r1 = StatusOK ∧ status r2 = StatusOK
  ∧ sent (conns (hub s1) 1%nat) = []
  ∧ sent (conns (hub s2) 1%nat) = []
  ∧ ¬ (∀ c, c ∈ clients (hub s0) →
            mkServiceUpdate ActionRegister (stamped (100 * Second) order_o1)
            ∈ sent (conns (hub s1) c)).
Proof.
  intros s0 r1 s1 r2 s2.
  assert (Hin : 1%nat ∈ clients (hub s0)).
  { unfold s0, connect. simpl clients. set_solver. }
  assert (H1 : sent (conns (hub s1) 1%nat) = []) by reflexivity.
  split; [exact Hin|]. split; [reflexivity|]. split; [reflexivity|].
  split; [reflexivity|]. split; [exact H1|]. split; [reflexivity|].
  intros H. specialize (H 1%nat Hin). rewrite H1 in H.
  by apply elem_of_nil in H.
Qed.

(** C6, amended.  The three HTTP handlers leave the hub as it is, whatever
    the request and its outcome: the set of subscribers and every
    connection are unchanged, so no event is written to any subscriber.
    The only changes to the server are those of the store operation. *)
Theorem handlers_leave_hub (ttl now : Z) (fault fault_all : option error) (s : Server) :
  (∀ decoded, hub (snd (register now fault decoded s)) = hub s)
  ∧ (∀ decoded, hub (snd (heartbeat now fault decoded s)) = hub s)
  ∧ (∀ raw, snd (lookup ttl now fault fault_all raw s) = s)
  ∧ (∀ decoded c, sent (conns (hub (snd (register now fault decoded s))) c)
                  = sent (conns (hub s) c))
  ∧ (∀ decoded c, sent (conns (hub (snd (heartbeat now fault decoded s))) c)
                  = sent (conns (hub s) c)).
Proof.
  assert (Hr : ∀ decoded, hub (snd (register now fault decoded s)) = hub s).
  { intros decoded. unfold register.
    destruct (ShouldBindJSON decoded); [|done].
    by destruct (Register now fault i (registry s)) as [[e|] c']. }
  assert (Hh : ∀ decoded, hub (snd (heartbeat now fault decoded s)) = hub s).
  { intros [[sn id]|]; unfold heartbeat; [|done].
    by destruct (UpdateHeartbeat now fault sn id (registry s)) as [[e|] c']. }
  split; [exact Hr|]. split; [exact Hh|]. split.
  { intros raw. unfold lookup. cbv zeta.
    by destruct (Find _ _ _ _ _ _ _ _ _) as [r [e|]]. }
  split; intros decoded c; by rewrite ?Hr, ?Hh.
Qed.

(* ===================================================================== *)
(** ** BroadcastMessage *)
(* ===================================================================== *)

Section broadcast_facts.
Variable msg : ServiceUpdate.

Lemma broadcast_step_absent h c :
  c ∉ clients h → broadcast_step msg h c = h.
Proof. intros H. unfold broadcast_step. by rewrite decide_False. Qed.

(** One iteration of the loop touches only the subscriber it visits. *)
Lemma broadcast_step_other h c c' :
  c' ≠ c →
  conns (broadcast_step msg h c) c' = conns h c'
  ∧ (c' ∈ clients (broadcast_step msg h c) ↔ c' ∈ clients h).
Proof.
  intros Hne. unfold broadcast_step, WriteJSON.
  destruct (decide (c ∈ clients h)); [|done].
  destruct (broken (conns h c) || closed (conns h c)); simpl.
  - rewrite fn_lookup_insert_ne by done. split; [done|].
    rewrite elem_of_difference, elem_of_singleton. tauto.
  - rewrite fn_lookup_insert_ne by done. done.
Qed.

Lemma broadcast_step_self h c :
  c ∈ clients h →
  let h' := broadcast_step msg h c in
  if writable (conns h c)
  then c ∈ clients h'
       ∧ conns h' c = mkConnState (broken (conns h c)) (closed (conns h c))
                                  (sent (conns h c) ++ [msg])
  else (c ∉ clients h')
       ∧ conns h' c = mkConnState (broken (conns h c)) true (sent (conns h c)).
Proof.
  intros Hin. unfold broadcast_step, WriteJSON, writable.
  rewrite decide_True by done.
  destruct (broken (conns h c) || closed (conns h c)); simpl.
  - rewrite fn_lookup_insert. split; [|done].
    rewrite elem_of_difference, elem_of_singleton. tauto.
  - rewrite fn_lookup_insert. done.
Qed.

(** Subscribers that are not visited are not affected. *)
Lemma broadcast_frame order h c :
  c ∉ order →
  conns (BroadcastMessage_in order msg h) c = conns h c
  ∧ (c ∈ clients (BroadcastMessage_in order msg h) ↔ c ∈ clients h).
Proof.
  unfold BroadcastMessage_in. revert h.
  induction order as [|a order IH]; intros h Hc; [done|].
  apply not_elem_of_cons in Hc as [Hne Hc]. simpl.
  destruct (IH (broadcast_step msg h a) Hc) as [-> ->].
  by apply broadcast_step_other.
Qed.

(** A visited subscriber is dealt with once, whatever happened to the
    subscribers visited before it and whatever happens afterwards. *)
Lemma broadcast_visited order h c :
  NoDup order → c ∈ order → c ∈ clients h →
  let h' := BroadcastMessage_in order msg h in
  if writable (conns h c)
  then c ∈ clients h'
       ∧ conns h' c = mkConnState (broken (conns h c)) (closed (conns h c))
                                  (sent (conns h c) ++ [msg])
  else (c ∉ clients h')
       ∧ conns h' c = mkConnState (broken (conns h c)) true (sent (conns h c)).
Proof.
  unfold BroadcastMessage_in. revert h.
  induction order as [|a order IH]; intros h Hnd Hc Hin; [by apply elem_of_nil in Hc|].
  apply NoDup_cons in Hnd as [Ha Hnd]. simpl.
  destruct (decide (c = a)) as [->|Hne].
  - destruct (broadcast_frame order (broadcast_step msg h a) a Ha) as [Hconn Hcl].
    unfold BroadcastMessage_in in Hconn, Hcl.
    pose proof (broadcast_step_self h a Hin) as Hself. simpl in Hself.
    destruct (writable (conns h a)); destruct Hself as [Hmem Hst].
    + split; [by apply Hcl|]. by rewrite Hconn.
    + split; [by rewrite Hcl|]. by rewrite Hconn.
  - apply elem_of_cons in Hc as [?|Hc]; [done|].
    destruct (broadcast_step_other h a c Hne) as [Hconn Hcl].
    specialize (IH (broadcast_step msg h a) Hnd Hc (proj2 Hcl Hin)).
    simpl in IH. by rewrite Hconn in IH.
Qed.

Lemma broadcast_in_outcome order h :
  NoDup order → (∀ c, c ∈ order ↔ c ∈ clients h) →
  broadcast_outcome msg h (BroadcastMessage_in order msg h).
Proof.
  intros Hnd Horder. split; [|split].
  - intros c Hin Hw.
    pose proof (broadcast_visited order h c Hnd (proj2 (Horder c) Hin) Hin) as H.
    simpl in H. by rewrite Hw in H.
  - intros c Hin Hw.
    pose proof (broadcast_visited order h c Hnd (proj2 (Horder c) Hin) Hin) as H.
    simpl in H. by rewrite Hw in H.
  - intros c Hout.
    assert (Hc : c ∉ order) by (by rewrite Horder).
    destruct (broadcast_frame order h c Hc) as [-> ->]. done.
Qed.

End broadcast_facts.

(** C8.  [BroadcastMessage] over the current set of subscribers, in
    whatever order the map is ranged over: a subscriber on which the write
    fails is closed and removed from the set; every subscriber on which the
    write succeeds stays in the set and has received the message exactly
    once, whether the failing subscribers come before or after it in the
    iteration; nothing else changes. *)
Theorem BroadcastMessage_isolation (msg : ServiceUpdate) (h : Hub) :
  (∀ order, NoDup order → (∀ c, c ∈ order ↔ c ∈ clients h) →
            broadcast_outcome msg h (BroadcastMessage_in order msg h))
  ∧ broadcast_outcome msg h (BroadcastMessage msg h).
Proof.
  split; [intros order; apply broadcast_in_outcome|].
  apply broadcast_in_outcome; [apply NoDup_elements|].
  intros c. apply elem_of_elements.
Qed.

Lemma BroadcastMessage_isolation_witness :
  let msg := mkServiceUpdate ActionRegister (stamped (100 * Second) order_o1) in
  let h' := BroadcastMessage_in [1; 2; 3]%nat msg three_clients in
  (NoDup [1; 2; 3]%nat ∧ (∀ c, c ∈ [1; 2; 3]%nat ↔ c ∈ clients three_clients))
  ∧ ((2%nat ∉ clients h') ∧ closed (conns h' 2%nat) = true)
  ∧ (3%nat ∈ clients h' ∧ sent (conns h' 3%nat) = [msg]).
Proof.
  intros msg h'.
  assert (H1 : NoDup [1; 2; 3]%nat) by (apply (bool_decide_unpack _); reflexivity).
  assert (H2 : ∀ c, c ∈ [1; 2; 3]%nat ↔ c ∈ clients three_clients).
  { intros c. unfold three_clients. simpl.
    rewrite !elem_of_cons, elem_of_nil, !elem_of_union, !elem_of_singleton. tauto. }
  split; [done|].
  destruct (BroadcastMessage_isolation msg three_clients) as [T _].
  destruct (T [1; 2; 3]%nat H1 H2) as (Tfail & Tok & _).
  split.
  - destruct (Tfail 2%nat) as [Hout Hst]; [unfold three_clients; simpl; set_solver|reflexivity|].
    split; [exact Hout|]. fold h' in Hst. by rewrite Hst.
  - destruct (Tok 3%nat) as [Hin Hst]; [unfold three_clients; simpl; set_solver|reflexivity|].
    split; [exact Hin|]. fold h' in Hst. by rewrite Hst.
Defined.

(* ===================================================================== *)
(** ** The store keeps its keys unique; the scenario of the specification *)
(* ===================================================================== *)

(** Each of the three mutations of the repository keeps the keys of the
    collection unique, so a store that starts empty never holds two
    records under one key. *)
Lemma unique_keys_invariant now fault ttl inst s i c :
  unique_keys c →
  unique_keys (snd (Register now fault inst c))
  ∧ unique_keys (snd (UpdateHeartbeat now fault s i c))
  ∧ unique_keys (snd (CleanupDead now fault ttl c)).
Proof.
  intros Hu. destruct fault as [e|].
  { by repeat split. }
  split; [|split].
  - destruct (Register_cases now inst c)
      as [[Hall ->]|(l1 & old & l2 & -> & Hall & [Hs Hi] & ->)]; simpl.
    + by apply unique_keys_snoc.
    + apply (unique_keys_replace l1 old); [|done].
      unfold key. simpl. by rewrite Hs, Hi.
  - unfold UpdateHeartbeat, UpdateOne. cbv zeta.
    match goal with |- context [update_first ?f ?u c] =>
      destruct (update_first_cases f u c)
        as [[_ ->]|(l1 & old & l2 & -> & _ & _ & ->)] end; simpl; [done|].
    by apply (unique_keys_replace l1 old).
  - unfold CleanupDead, DeleteMany. simpl. by apply unique_keys_filter.
Qed.

(** Register [o1]; a lookup by service and region within the TTL returns
    the stored record, with [health = "UP"] and the time of registration;
    a lookup after the TTL has passed finds nothing; after the next sweep
    the collection is empty. *)
Example scenario_register_lookup_expire :
  let t0 := 1000 * Second in
  let query := [("service", "order-service"); ("region", "us-east")] in
  let s1 := snd (register t0 None (Some order_o1) (mkServer [] empty_hub)) in
  registry s1 = [stamped t0 order_o1]
  ∧ fst (lookup heartbeatTTL (t0 + 5 * Second) None None query s1)
    = mkResponse StatusOK (JArray [stamped t0 order_o1])
  ∧ fst (lookup heartbeatTTL (t0 + 30 * Second) None None query s1)
    = mkResponse StatusOK (JArray [stamped t0 order_o1])
  ∧ fst (lookup heartbeatTTL (t0 + 31 * Second) None None query s1)
    = mkResponse StatusOK JNull
  ∧ registry s1 = registry (cleanup_tick (t0 + 30 * Second) None s1)
  ∧ registry (cleanup_tick (t0 + 40 * Second) None s1) = [].
Proof. by vm_compute. Qed.

(* ===================================================================== *)
(** ** The repository: how the operations compose *)
(* ===================================================================== *)

Section composition_facts.

Lemma update_first_absent flt set c :
  Forall (λ d, matches flt d = false) c → update_first flt set c = None.
Proof.
  induction 1 as [|d c Hd _ IH]; simpl; [done|]. by rewrite Hd, IH.
Qed.

Lemma update_first_present flt set l1 old l2 :
  Forall (λ d, matches flt d = false) l1 → matches flt old = true →
  update_first flt set (l1 ++ old :: l2)
  = Some (old, l1 ++ apply_set set old :: l2).
Proof.
  intros Hall Hold. induction Hall as [|d l1 Hd _ IH]; simpl.
  - by rewrite Hold.
  - by rewrite Hd, IH.
Qed.

Lemma no_key_no_match s i c :
  Forall (λ d, ¬ has_key s i d) c →
  Forall (λ d, matches {[ "serviceName" := CEq (BString s);
                          "id" := CEq (BString i) ]} d = false) c.
Proof.
  intros H. eapply List.Forall_impl; [|exact H]. intros d. by rewrite not_matches_key.
Qed.

Lemma Register_absent now inst c :
  Forall (λ d, ¬ has_key (ServiceName inst) (ID inst) d) c →
  Register now None inst c = (None, c ++ [stamped now inst]).
Proof.
  intros H%no_key_no_match. unfold Register. cbv zeta.
  change (ServiceName (setHealth "UP" (setLastHeartbeat now inst))) with (ServiceName inst).
  change (ID (setHealth "UP" (setLastHeartbeat now inst))) with (ID inst).
  unfold UpdateOne. rewrite update_first_absent by done.
  by rewrite apply_set_stamped.
Qed.

Lemma Register_present now inst l1 old l2 :
  Forall (λ d, ¬ has_key (ServiceName inst) (ID inst) d) l1 →
  has_key (ServiceName inst) (ID inst) old →
  Register now None inst (l1 ++ old :: l2) = (None, l1 ++ stamped now inst :: l2).
Proof.
  intros H%no_key_no_match Hold%matches_key. unfold Register. cbv zeta.
  change (ServiceName (setHealth "UP" (setLastHeartbeat now inst))) with (ServiceName inst).
  change (ID (setHealth "UP" (setLastHeartbeat now inst))) with (ID inst).
  unfold UpdateOne. rewrite update_first_present by done.
  by rewrite apply_set_stamped.
Qed.

Lemma UpdateHeartbeat_absent now s i c :
  Forall (λ d, ¬ has_key s i d) c →
  UpdateHeartbeat now None s i c = (Some ErrNoDocuments, c).
Proof.
  intros H%no_key_no_match. unfold UpdateHeartbeat, UpdateOne. cbv zeta.
  by rewrite update_first_absent.
Qed.

Lemma UpdateHeartbeat_present now s i l1 old l2 :
  Forall (λ d, ¬ has_key s i d) l1 → has_key s i old →
  UpdateHeartbeat now None s i (l1 ++ old :: l2)
  = (None, l1 ++ touched now old :: l2).
Proof.
  intros H%no_key_no_match Hold%matches_key. unfold UpdateHeartbeat, UpdateOne.
  cbv zeta. rewrite update_first_present by done. by rewrite apply_set_heartbeat.
Qed.

Lemma UpdateHeartbeat_cases now s i c :
  (Forall (λ d, ¬ has_key s i d) c
   ∧ UpdateHeartbeat now None s i c = (Some ErrNoDocuments, c))
  ∨ (∃ l1 old l2,
        c = l1 ++ old :: l2
        ∧ Forall (λ d, ¬ has_key s i d) l1
        ∧ has_key s i old
        ∧ UpdateHeartbeat now None s i c = (None, l1 ++ touched now old :: l2)).
Proof.
  unfold UpdateHeartbeat. cbv zeta. unfold UpdateOne.
  match goal with |- context [update_first ?f ?u c] =>
    destruct (update_first_cases f u c)
      as [[Hall ->]|(l1 & old & l2 & -> & Hall & Hold & ->)] end.
  - left. split; [|done].
    eapply List.Forall_impl; [|exact Hall]. intros d. by rewrite not_matches_key.
  - right. exists l1, old, l2. rewrite apply_set_heartbeat.
    split; [done|]. split.
    { eapply List.Forall_impl; [|exact Hall]. intros d. by rewrite not_matches_key. }
    split; [by apply matches_key|done].
Qed.

Lemma CleanupDead_filter now ttl c :
  CleanupDead now None ttl c
  = (None, List.filter (λ d, bool_decide (DateTime (now - ttl) ≤ LastHeartbeat d)) c).
Proof. unfold CleanupDead, DeleteMany. simpl. by rewrite sweep_filter. Qed.

Lemma filter_filter_impl {A} (p q : A → bool) (l : list A) :
  (∀ x, p x = true → q x = true) →
  List.filter p (List.filter q l) = List.filter p l.
Proof.
  intros Hpq. induction l as [|x l IH]; simpl; [done|].
  destruct (q x) eqn:Hq; simpl.
  - by rewrite IH.
  - destruct (p x) eqn:Hp; [|done]. apply Hpq in Hp. congruence.
Qed.


Lemma stamped_in_Register now inst c : stamped now inst ∈ snd (Register now None inst c).
Proof.
  destruct (Register_cases now inst c)
    as [[_ ->]|(l1 & old & l2 & _ & _ & _ & ->)]; simpl;
    apply elem_of_app; right; by left.
Qed.

Lemma UpdateHeartbeat_after_Register_eq t1 t2 inst c :
  UpdateHeartbeat t2 None (ServiceName inst) (ID inst) (snd (Register t1 None inst c))
  = (None, snd (Register t2 None inst c)).
Proof.
  destruct (Register_cases t1 inst c)
    as [[Hall ->]|(l1 & old & l2 & -> & Hall & Hold & ->)]; simpl.
  - rewrite (UpdateHeartbeat_present t2 _ _ c (stamped t1 inst) []), Register_absent;
      try done.
  - rewrite UpdateHeartbeat_present, Register_present; try done.
Qed.

End composition_facts.

(** X1.  Last writer wins: registering [inst2] after [inst1], two payloads
    with the same key, leaves the collection that registering [inst2]
    alone leaves; nothing of [inst1] remains.  With [inst1 = inst2], a
    repeated registration only moves [lastHeartbeat]. *)
Theorem Register_last_writer_wins (t1 t2 : Z) (inst1 inst2 : Instance) (c : collection) :
  ServiceName inst1 = ServiceName inst2 → ID inst1 = ID inst2 →
  Register t2 None inst2 (snd (Register t1 None inst1 c)) = Register t2 None inst2 c.
Proof.
  intros Hs Hi.
  destruct (Register_cases t1 inst1 c)
    as [[Hall ->]|(l1 & old & l2 & -> & Hall & Hold & ->)]; simpl.
  - rewrite Hs, Hi in Hall.
    rewrite (Register_present t2 inst2 c (stamped t1 inst1) []), Register_absent; try done.
    all: unfold has_key; simpl; by rewrite Hs, Hi.
  - rewrite Hs, Hi in Hall, Hold.
    rewrite !Register_present; try done.
    all: unfold has_key; simpl; by rewrite Hs, Hi.
Qed.

Lemma Register_last_writer_wins_witness :
  (ServiceName order_o1 = ServiceName (setPort 9 order_o1)
   ∧ ID order_o1 = ID (setPort 9 order_o1))
  ∧ Register (200 * Second) None (setPort 9 order_o1)
             (snd (Register (100 * Second) None order_o1 []))
    = (None, [stamped (200 * Second) (setPort 9 order_o1)]).
Proof.
  assert (H1 : ServiceName order_o1 = ServiceName (setPort 9 order_o1)) by reflexivity.
  assert (H2 : ID order_o1 = ID (setPort 9 order_o1)) by reflexivity.
  split; [done|].
  rewrite (Register_last_writer_wins (100 * Second) (200 * Second)
             order_o1 (setPort 9 order_o1) [] H1 H2).
  by vm_compute.
Defined.

(** X2.  A heartbeat for a registered instance does to the collection what
    registering the same payload again at that time does, and returns no
    error. *)
Theorem UpdateHeartbeat_after_Register (t1 t2 : Z) (inst : Instance) (c : collection) :
  UpdateHeartbeat t2 None (ServiceName inst) (ID inst) (snd (Register t1 None inst c))
  = (None, snd (Register t2 None inst c))
  ∧ stamped t2 inst ∈ snd (UpdateHeartbeat t2 None (ServiceName inst) (ID inst)
                             (snd (Register t1 None inst c)))
  ∧ (∀ h, heartbeat t2 None (Some (ServiceName inst, ID inst))
                    (mkServer (snd (Register t1 None inst c)) h)
          = (mkResponse StatusOK (JMessage "heartbeat ok"),
             mkServer (snd (Register t2 None inst c)) h)).
Proof.
  split; [|split].
  - apply UpdateHeartbeat_after_Register_eq.
  - rewrite UpdateHeartbeat_after_Register_eq. apply stamped_in_Register.
  - intros h. unfold heartbeat. simpl registry. simpl hub.
    by rewrite UpdateHeartbeat_after_Register_eq.
Qed.

(** X3.  The sweep composes: sweeping at [now2] a collection already swept
    at an earlier (or the same) time [now1] gives what sweeping at [now2]
    alone gives; in particular a second sweep at the same time changes
    nothing. *)
Theorem CleanupDead_compose (now1 now2 ttl : Z) (c : collection) :
  now1 ≤ now2 →
  CleanupDead now2 None ttl (snd (CleanupDead now1 None ttl c))
  = CleanupDead now2 None ttl c
  ∧ CleanupDead now1 None ttl (snd (CleanupDead now1 None ttl c))
    = CleanupDead now1 None ttl c.
Proof.
  intros Hle. rewrite !CleanupDead_filter. simpl. split; f_equal.
  - apply filter_filter_impl. intros d. rewrite !bool_decide_eq_true.
    pose proof (DateTime_mono (now1 - ttl) (now2 - ttl) ltac:(lia)). lia.
  - by apply filter_filter_impl.
Qed.

Lemma CleanupDead_compose_witness :
  let c := [stamped (60 * Second) order_o1; stamped (120 * Second) payment_p1] in
  100 * Second ≤ 140 * Second
  ∧ CleanupDead (140 * Second) None heartbeatTTL
                (snd (CleanupDead (100 * Second) None heartbeatTTL c))
    = (None, [stamped (120 * Second) payment_p1]).
Proof.
  intros c.
  assert (H : 100 * Second ≤ 140 * Second) by (by vm_compute).
  split; [exact H|].
  rewrite (proj1 (CleanupDead_compose (100 * Second) (140 * Second) heartbeatTTL c H)).
  by vm_compute.
Defined.

(** X4.  The sweep is invisible to lookups: an alive-only [Find] at time
    [now] returns the same result on the collection as swept at any time
    up to [now] (with the same TTL) as on the unswept collection. *)
Theorem sweep_invisible_to_Find (swept_at now ttl : Z) (fault : option error)
        (sn mode : string) (md : gmap string value) (c : collection) :
  swept_at ≤ now →
  Find now None None sn mode md true ttl (snd (CleanupDead swept_at fault ttl c))
  = Find now None None sn mode md true ttl c.
Proof.
  intros Hle. destruct fault as [e|]; [done|].
  rewrite CleanupDead_filter. simpl. unfold Find, mongo.Find. cbv zeta.
  rewrite filter_filter_impl; [done|].
  intros d [_ Hlive]%find_filter_matches. apply bool_decide_eq_true.
  specialize (Hlive eq_refl).
  pose proof (DateTime_mono (swept_at - ttl) (now - ttl) ltac:(lia)). lia.
Qed.

Lemma sweep_invisible_to_Find_witness :
  let c := [stamped (60 * Second) order_o1; stamped (120 * Second) payment_p1] in
  100 * Second ≤ 125 * Second
  ∧ Find (125 * Second) None None "" "" ∅ true heartbeatTTL
         (snd (CleanupDead (100 * Second) None heartbeatTTL c))
    = (Slice [stamped (120 * Second) payment_p1], None).
Proof.
  intros c.
  assert (H : 100 * Second ≤ 125 * Second) by (by vm_compute).
  split; [exact H|].
  rewrite (sweep_invisible_to_Find (100 * Second) (125 * Second) heartbeatTTL None
             "" "" ∅ c H).
  by vm_compute.
Defined.

(** X5.  An instance whose records are all older than the date the
    sweep compares with, its cutoff [swept_at - ttl] rounded down to the
    millisecond (as every record is that is at least a millisecond older
    than the cutoff), is gone after the sweep and cannot be revived by a
    heartbeat: [UpdateHeartbeat] returns [mongo.ErrNoDocuments], the
    handler answers 404, and the swept collection stays as it is. *)
Theorem heartbeat_after_sweep (swept_at now ttl : Z) (s i : string)
        (c : collection) (h : Hub) :
  Forall (λ d, has_key s i d → LastHeartbeat d < DateTime (swept_at - ttl)) c →
  let swept := snd (CleanupDead swept_at None ttl c) in
  Forall (λ d, ¬ has_key s i d) swept
  ∧ UpdateHeartbeat now None s i swept = (Some ErrNoDocuments, swept)
  ∧ heartbeat now None (Some (s, i)) (mkServer swept h)
    = (mkResponse StatusNotFound (JError (EStore ErrNoDocuments)), mkServer swept h)
  ∧ (∀ d, LastHeartbeat d + Millisecond ≤ swept_at - ttl →
          LastHeartbeat d < DateTime (swept_at - ttl)).
Proof.
  intros Hold swept.
  assert (Hnone : Forall (λ d, ¬ has_key s i d) swept).
  { unfold swept. rewrite CleanupDead_filter. simpl.
    apply List.Forall_forall. intros d [Hd Hlive]%List.filter_In Hk.
    apply bool_decide_eq_true in Hlive.
    rewrite List.Forall_forall in Hold. specialize (Hold d Hd Hk). lia. }
  split; [exact Hnone|].
  split; [by apply UpdateHeartbeat_absent|]. split.
  - unfold heartbeat. simpl registry. by rewrite UpdateHeartbeat_absent.
  - intros d Hd. pose proof (DateTime_bounds (swept_at - ttl)). lia.
Qed.

Lemma heartbeat_after_sweep_witness :
  let c := [stamped (60 * Second) order_o1; stamped (120 * Second) payment_p1] in
  Forall (λ d, has_key "order-service" "o1" d →
               LastHeartbeat d < DateTime (100 * Second + 999 - heartbeatTTL)) c
  ∧ UpdateHeartbeat (110 * Second) None "order-service" "o1"
      (snd (CleanupDead (100 * Second + 999) None heartbeatTTL c))
    = (Some ErrNoDocuments, [stamped (120 * Second) payment_p1]).
Proof.
  intros c.
  assert (H : Forall (λ d, has_key "order-service" "o1" d →
                           LastHeartbeat d < DateTime (100 * Second + 999 - heartbeatTTL)) c).
  { apply Forall_cons. split; [intros _; by vm_compute|].
    apply Forall_cons. split; [|apply Forall_nil_2].
    intros [Hs _]. discriminate Hs. }
  split; [exact H|].
  pose proof (heartbeat_after_sweep (100 * Second + 999) (110 * Second) heartbeatTTL
                "order-service" "o1" c empty_hub H) as T.
  cbv zeta in T. destruct T as (_ & T & _).
  etransitivity; [exact T|]. by vm_compute.
Defined.

(* ===================================================================== *)
(** ** The handlers: registration, lookup by service, validation *)
(* ===================================================================== *)

Section handler_facts.

Lemma register_valid now inst c h :
  validInstance inst = true →
  register now None (Some inst) (mkServer c h)
  = (mkResponse StatusOK (JInstance inst), mkServer (snd (Register now None inst c)) h).
Proof.
  intros Hv. unfold register, ShouldBindJSON. rewrite Hv. simpl registry. simpl hub.
  by destruct (Register_cases now inst c)
    as [[_ ->]|(l1 & old & l2 & _ & _ & _ & ->)].
Qed.

Lemma lookup_instances ttl now raw s :
  status (fst (lookup ttl now None None raw s)) = StatusOK
  ∧ instances_of (body (fst (lookup ttl now None None raw s)))
    = List.filter (matches (lookup_filter ttl now raw)) (registry s).
Proof. rewrite lookup_response. simpl. by destruct (List.filter _ _). Qed.

(** With the one parameter [service], the lookup filter asks for that
    service name (if not empty) and for liveness. *)
Lemma lookup_filter_service ttl now sn d :
  matches (lookup_filter ttl now [("service", sn)]) d = true
  ↔ (sn = "" ∨ ServiceName d = sn) ∧ DateTime (now - ttl) ≤ LastHeartbeat d.
Proof.
  unfold lookup_filter. cbv zeta. rewrite find_filter_matches, !Query_first.
  change (hd "" (values_of "service" [("service", sn)])) with sn.
  change (hd "" (values_of "mode" [("service", sn)])) with "".
  unfold selected. split.
  - intros [(Hs & _ & _) Hlive]. split; [done|]. by apply Hlive.
  - intros [Hs Hlive]. split; [|done]. split; [done|]. split; [by left|].
    intros k v. rewrite lookup_metadata_lookup, URL_Query_lookup.
    destruct (String.eqb_spec k "service") as [->|Hne]; [done|].
    destruct (String.eqb k "mode"); [done|]. simpl.
    rewrite values_of_cons.
    destruct (String.eqb_spec "service" k) as [<-|_]; [done|]. done.
Qed.

End handler_facts.

(** X6.  A registered instance is discoverable until its TTL passes, to
    the millisecond.  After a valid registration at time [t], a lookup by
    its service name at time [t'] contains the stored record exactly when
    the millisecond of [t' - ttl] is not after the millisecond of [t]: so
    it does whenever [t' - ttl <= t], and no longer once [t' - ttl] is a
    millisecond or more after [t].  After a heartbeat at time [t2], which
    is answered 200, the same holds with [t2] for [t]. *)
Theorem registered_until_ttl (ttl t t2 t' : Z) (inst : Instance) (c : collection) (h : Hub) :
  validInstance inst = true →
  let s1 := snd (register t None (Some inst) (mkServer c h)) in
  let s2 := snd (heartbeat t2 None (Some (ServiceName inst, ID inst)) s1) in
  let query := [("service", ServiceName inst)] in
  let found now s :=
    stamped now inst ∈ instances_of (body (fst (lookup ttl t' None None query s))) in
  (found t s1 ↔ DateTime (t' - ttl) ≤ DateTime t)
  ∧ (t' - ttl ≤ t → found t s1)
  ∧ (t + Millisecond ≤ t' - ttl → ¬ found t s1)
  ∧ status (fst (heartbeat t2 None (Some (ServiceName inst, ID inst)) s1)) = StatusOK
  ∧ (found t2 s2 ↔ DateTime (t' - ttl) ≤ DateTime t2)
  ∧ (t' - ttl ≤ t2 → found t2 s2)
  ∧ (t2 + Millisecond ≤ t' - ttl → ¬ found t2 s2).
Proof.
  intros Hv s1 s2 query found.
  assert (Hs1 : s1 = mkServer (snd (Register t None inst c)) h).
  { unfold s1. by rewrite register_valid. }
  assert (Hhb : heartbeat t2 None (Some (ServiceName inst, ID inst)) s1
                = (mkResponse StatusOK (JMessage "heartbeat ok"),
                   mkServer (snd (Register t2 None inst c)) h)).
  { rewrite Hs1. unfold heartbeat. simpl registry. simpl hub.
    by rewrite UpdateHeartbeat_after_Register_eq. }
  assert (Hs2 : s2 = mkServer (snd (Register t2 None inst c)) h).
  { unfold s2. by rewrite Hhb. }
  assert (Hin : ∀ now c0,
    found now (mkServer (snd (Register now None inst c0)) h)
    ↔ DateTime (t' - ttl) ≤ DateTime now).
  { intros now c0. unfold found.
    destruct (lookup_instances ttl t' query
                (mkServer (snd (Register now None inst c0)) h)) as [_ ->].
    rewrite list_elem_of_In, List.filter_In, <-list_elem_of_In.
    unfold query. rewrite lookup_filter_service. simpl registry. split.
    - by intros [_ [_ Hl]].
    - intros Hl. split; [apply stamped_in_Register|]. split; [by right|done]. }
  assert (Hall : ∀ now,
    (t' - ttl ≤ now → DateTime (t' - ttl) ≤ DateTime now)
    ∧ (now + Millisecond ≤ t' - ttl → ¬ DateTime (t' - ttl) ≤ DateTime now)).
  { intros now. split; [apply DateTime_mono|].
    intros Hlate Hle.
    pose proof (DateTime_bounds (t' - ttl)). pose proof (DateTime_bounds now). lia. }
  rewrite Hs1, Hs2, !Hin.
  split; [done|]. split; [apply Hall|]. split; [apply Hall|].
  split; [by rewrite <-Hs1, Hhb|]. split; [done|]. split; apply Hall.
Qed.

Lemma registered_until_ttl_witness :
  let t := 100 * Second + 123456789 in
  validInstance order_o1 = true
  ∧ (stamped t order_o1
     ∈ instances_of
         (body (fst (lookup heartbeatTTL (t + heartbeatTTL + 1000) None None
                            [("service", "order-service")]
                            (snd (register t None (Some order_o1) new_server)))))
     ↔ DateTime (t + heartbeatTTL + 1000 - heartbeatTTL) ≤ DateTime t).
Proof.
  intros t.
  assert (H : validInstance order_o1 = true) by reflexivity.
  split; [exact H|].
  pose proof (registered_until_ttl heartbeatTTL t t (t + heartbeatTTL + 1000)
                order_o1 [] empty_hub H) as T.
  cbv zeta in T. exact (proj1 T).
Defined.

(* ===================================================================== *)
(** ** What every reachable state of the server satisfies *)
(* ===================================================================== *)

Section reachable_facts.

Lemma Register_Forall (P : Instance → Prop) now fault inst c :
  P (stamped now inst) → Forall P c → Forall P (snd (Register now fault inst c)).
Proof.
  intros Hnew Hall. destruct fault as [e|]; [done|].
  destruct (Register_cases now inst c)
    as [[_ ->]|(l1 & old & l2 & -> & _ & _ & ->)]; simpl.
  - apply Forall_app. split; [done|]. by apply Forall_singleton.
  - apply Forall_app in Hall as [H1 H2]. apply Forall_cons in H2 as [_ H2].
    apply Forall_app. split; [done|]. by apply Forall_cons.
Qed.

Lemma UpdateHeartbeat_Forall (P : Instance → Prop) now fault s i c :
  (∀ old, P old → P (touched now old)) →
  Forall P c → Forall P (snd (UpdateHeartbeat now fault s i c)).
Proof.
  intros Htouch Hall. destruct fault as [e|]; [done|].
  destruct (UpdateHeartbeat_cases now s i c)
    as [[_ ->]|(l1 & old & l2 & -> & _ & _ & ->)]; simpl; [done|].
  apply Forall_app in Hall as [H1 H2]. apply Forall_cons in H2 as [Hold H2].
  apply Forall_app. split; [done|]. apply Forall_cons. split; [|done].
  by apply (Htouch old).
Qed.

Lemma CleanupDead_Forall (P : Instance → Prop) now fault ttl c :
  Forall P c → Forall P (snd (CleanupDead now fault ttl c)).
Proof.
  intros Hall. destruct fault as [e|]; [done|].
  rewrite CleanupDead_filter. simpl.
  apply List.Forall_forall. intros d [Hd _]%List.filter_In.
  rewrite List.Forall_forall in Hall. by apply Hall.
Qed.

Lemma lookup_keeps_server ttl now fault fault_all raw s :
  snd (lookup ttl now fault fault_all raw s) = s.
Proof.
  unfold lookup. cbv zeta. by destruct (Find _ _ _ _ _ _ _ _ _) as [r [e|]].
Qed.

Lemma register_registry now fault decoded s :
  (registry (snd (register now fault decoded s)) = registry s
   ∨ ∃ inst, decoded = Some inst ∧ validInstance inst = true
             ∧ registry (snd (register now fault decoded s))
               = snd (Register now fault inst (registry s)))
  ∧ hub (snd (register now fault decoded s)) = hub s.
Proof.
  unfold register, ShouldBindJSON. destruct decoded as [inst|]; [|by split; [left|]].
  destruct (validInstance inst) eqn:Hv; [|by split; [left|]].
  destruct (Register now fault inst (registry s)) as [[e|] c'] eqn:E; simpl;
    (split; [right; exists inst; by rewrite E|done]).
Qed.

Lemma heartbeat_registry now fault decoded s :
  (registry (snd (heartbeat now fault decoded s)) = registry s
   ∨ ∃ sn id, registry (snd (heartbeat now fault decoded s))
              = snd (UpdateHeartbeat now fault sn id (registry s)))
  ∧ hub (snd (heartbeat now fault decoded s)) = hub s.
Proof.
  unfold heartbeat. destruct decoded as [[sn id]|]; [|by split; [left|]].
  destruct (UpdateHeartbeat now fault sn id (registry s)) as [[e|] c'] eqn:E; simpl;
    (split; [right; exists sn, id; by rewrite E|done]).
Qed.

Lemma serve_inv s e : reachable_inv s → reachable_inv (serve s e).
Proof.
  intros (Hu & Hall & Hsent). destruct e as [now fault decoded|now fault decoded|
    now fault fault_all raw|now fault|c|c]; simpl.
  - destruct (register_registry now fault decoded s)
      as [[Hr|(inst & -> & Hv & Hr)] Hh].
    + unfold reachable_inv. by rewrite Hr, Hh.
    + unfold reachable_inv. rewrite Hr, Hh. split; [|split; [|done]].
      * by apply (unique_keys_invariant now fault 0 inst "" "").
      * by apply Register_Forall.
  - destruct (heartbeat_registry now fault decoded s)
      as [[Hr|(sn & id & Hr)] Hh].
    + unfold reachable_inv. by rewrite Hr, Hh.
    + unfold reachable_inv. rewrite Hr, Hh. split; [|split; [|done]].
      * by apply (unique_keys_invariant now fault 0 order_o1 sn id).
      * apply UpdateHeartbeat_Forall; [|done]. by intros old [_ Hv].
  - by rewrite lookup_keeps_server.
  - unfold cleanup_tick, reachable_inv. simpl. split; [|split; [|done]].
    + by apply (unique_keys_invariant now fault heartbeatTTL order_o1 "" "").
    + by apply CleanupDead_Forall.
  - done.
  - unfold reachable_inv, disconnect, delete_client, Close.
    cbn [registry hub conns clients]. split; [done|]. split; [done|].
    intros c'. destruct (decide (c = c')) as [->|Hne].
    + rewrite fn_lookup_insert. apply Hsent.
    + rewrite fn_lookup_insert_ne by done. apply Hsent.
Qed.

End reachable_facts.

(** X7.  Whatever requests, sweeps, store failures and WebSocket
    connections a server has seen since it started empty: no two stored
    records share a key [(serviceName, id)]; every stored record passed
    the validation of [POST /register] and has [health = "UP"], so every
    instance in the answer to a lookup has; and no message has been
    written to any WebSocket connection. *)
Theorem reachable_server (events : list event) :
  let s := serve_all events new_server in
  unique_keys (registry s)
  ∧ Forall (λ d, Health d = "UP" ∧ validInstance d = true) (registry s)
  ∧ (∀ now raw d,
       d ∈ instances_of (body (fst (lookup heartbeatTTL now None None raw s))) →
       Health d = "UP" ∧ validInstance d = true)
  ∧ (∀ c, sent (conns (hub s) c) = []).
Proof.
  intros s.
  assert (Hinv : reachable_inv s).
  { unfold s, serve_all.
    assert (H0 : reachable_inv new_server).
    { split; [apply NoDup_nil_2|]. split; [apply Forall_nil_2|done]. }
    revert H0. generalize new_server.
    induction events as [|e events IH]; intros s0 H0; simpl; [done|].
    apply IH. by apply serve_inv. }
  destruct Hinv as (Hu & Hall & Hsent).
  split; [done|]. split; [done|]. split; [|done].
  intros now raw d. destruct (lookup_instances heartbeatTTL now raw s) as [_ ->].
  intros [Hd _]%list_elem_of_In%List.filter_In.
  rewrite List.Forall_forall in Hall. by apply Hall.
Qed.

(* ===================================================================== *)
(** ** Validation and status codes *)
(* ===================================================================== *)

Section status_facts.

Lemma required_string_spec s : required_string s = true ↔ s ≠ "".
Proof. unfold required_string. by rewrite negb_true_iff, String.eqb_neq. Qed.

Lemma required_int_spec n : required_int n = true ↔ n ≠ 0.
Proof. unfold required_int. by rewrite negb_true_iff, Z.eqb_neq. Qed.

Lemma oneof_env_spec s :
  oneof ["dev"; "staging"; "prod"] s = true ↔ s = "dev" ∨ s = "staging" ∨ s = "prod".
Proof.
  unfold oneof. simpl. rewrite !orb_true_iff, !String.eqb_eq. intuition discriminate.
Qed.

Lemma validInstance_spec inst :
  validInstance inst = true
  ↔ ServiceName inst ≠ "" ∧ ID inst ≠ "" ∧ Host inst ≠ "" ∧ Port inst ≠ 0
    ∧ (Mode inst = "dev" ∨ Mode inst = "staging" ∨ Mode inst = "prod")
    ∧ (Environment (Metadata_ inst) = "dev" ∨ Environment (Metadata_ inst) = "staging"
       ∨ Environment (Metadata_ inst) = "prod")
    ∧ Region (Metadata_ inst) ≠ "" ∧ Version (Metadata_ inst) ≠ 0.
Proof.
  unfold validInstance, validMetadata.
  rewrite !andb_true_iff, !required_string_spec, !required_int_spec, !oneof_env_spec.
  split.
  - intros ((((((? & ?) & ?) & ?) & ?) & ?) & (((? & ?) & ?) & ?)). by repeat split.
  - intros (? & ? & ? & ? & Hm & He & ? & ?). repeat split; try done.
    + by destruct Hm as [-> | [-> | ->]].
    + by destruct He as [-> | [-> | ->]].
Qed.

Lemma server_eta s : mkServer (registry s) (hub s) = s.
Proof. by destruct s. Qed.

End status_facts.

(** X8.  [POST /register] answers 400 exactly when the body cannot be
    decoded or breaks a [binding] tag, and then the server is unchanged,
    whatever the state of the store.  The tags accept exactly the
    instances with non-empty service name, id, host and region, a port and
    a version other than 0 and one of the three environment words as mode
    and as environment: version 0 and port 0 are rejected, any other
    integer is accepted as port or version. *)
Theorem register_validation (now : Z) (fault : option error)
        (decoded : option Instance) (s : Server) :
  (status (fst (register now fault decoded s)) = StatusBadRequest
   ↔ decoded = None ∨ ∃ inst, decoded = Some inst ∧ validInstance inst = false)
  ∧ (status (fst (register now fault decoded s)) = StatusBadRequest →
     snd (register now fault decoded s) = s)
  ∧ (∀ inst,
       validInstance inst = true
       ↔ ServiceName inst ≠ "" ∧ ID inst ≠ "" ∧ Host inst ≠ "" ∧ Port inst ≠ 0
         ∧ (Mode inst = "dev" ∨ Mode inst = "staging" ∨ Mode inst = "prod")
         ∧ (Environment (Metadata_ inst) = "dev"
            ∨ Environment (Metadata_ inst) = "staging"
            ∨ Environment (Metadata_ inst) = "prod")
         ∧ Region (Metadata_ inst) ≠ "" ∧ Version (Metadata_ inst) ≠ 0).
Proof.
  split; [|split; [|apply validInstance_spec]].
  - unfold register, ShouldBindJSON. destruct decoded as [inst|].
    + destruct (validInstance inst) eqn:Hv.
      * destruct (Register now fault inst (registry s)) as [[e|] c']; simpl;
          (split; [discriminate|]); intros [?|(i & Heq & ?)]; congruence.
      * simpl. split; [|done]. intros _. right. by exists inst.
    + simpl. split; [by left|done].
  - unfold register, ShouldBindJSON. destruct decoded as [inst|]; [|done].
    destruct (validInstance inst); [|done].
    by destruct (Register now fault inst (registry s)) as [[e|] c'].
Qed.

(** X9.  [POST /heartbeat] answers 200, 400 or 404, never 500: 400 exactly
    when the body cannot be decoded; a failure of the store is answered
    404 like an unknown instance; and a heartbeat that is not answered 200
    leaves the server as it was.  With a working store the answer is 200
    exactly when a record has the key. *)
Theorem heartbeat_status (now : Z) (fault : option error)
        (decoded : option (string * string)) (s : Server) :
  let resp := fst (heartbeat now fault decoded s) in
  (status resp = StatusOK ∨ status resp = StatusBadRequest
   ∨ status resp = StatusNotFound)
  ∧ (status resp = StatusBadRequest ↔ decoded = None)
  ∧ (∀ e sn id, fault = Some e → decoded = Some (sn, id) →
       resp = mkResponse StatusNotFound (JError (EStore e)))
  ∧ (status resp ≠ StatusOK → snd (heartbeat now fault decoded s) = s)
  ∧ (∀ sn id, fault = None → decoded = Some (sn, id) →
       (status resp = StatusOK ↔ Exists (has_key sn id) (registry s))).
Proof.
  intros resp. unfold resp, heartbeat. destruct decoded as [[sn id]|]; simpl.
  2: { split; [by right; left|]. split; [done|]. split; [done|]. by split. }
  destruct fault as [e|].
  { simpl. rewrite server_eta. split; [by right; right|]. split; [done|].
    split; [by intros ??? [= ->] _|]. by split. }
  destruct (UpdateHeartbeat_cases now sn id (registry s))
    as [[Hall ->]|(l1 & old & l2 & Hc & Hall & Hold & ->)]; simpl.
  - rewrite server_eta. split; [by right; right|]. split; [done|].
    split; [done|]. split; [done|].
    intros ?? _ [= -> ->]. split; [done|].
    intros Hex%Exists_exists. destruct Hex as (d & Hd & Hk).
    rewrite Forall_forall in Hall. by destruct (Hall d Hd).
  - split; [by left|]. split; [done|]. split; [done|]. split; [done|].
    intros ?? _ [= -> ->]. split; [|done]. intros _.
    rewrite Hc. apply Exists_app. right. by left.
Qed.

(* ===================================================================== *)
(** ** Which metadata filters of the HTTP API match which records *)
(* ===================================================================== *)

Section metadata_facts.

Lemma split_dot_single k h : split_dot k = [h] → k = h.
Proof.
  revert h. induction k as [|c k IH]; intros h; simpl.
  - by intros [= <-].
  - destruct (Ascii.eqb c ".").
    + destruct (split_dot_cons k) as (h' & t' & ->). discriminate.
    + destruct (split_dot k) as [|h' t'] eqn:E.
      * by intros [= <-]; destruct (split_dot_cons k) as (? & ? & ?); congruence.
      * intros [= <- ->]. by rewrite (IH h').
Qed.

Lemma lookup_path_scalar segs v w :
  (∀ fields, v ≠ BDocument fields) → lookup_path segs v = Some w → segs = [] ∧ w = v.
Proof.
  intros Hv. destruct segs as [|s segs]; simpl.
  - by intros [= <-].
  - destruct v; try discriminate. by destruct (Hv fields).
Qed.

(** The fields of the embedded [metadata] document that a path can reach. *)
Lemma metadata_path k m w :
  lookup_path (split_dot k) (BDocument (marshalMetadata m)) = Some w
  ↔ (k = "environment" ∧ w = BString (Environment m))
    ∨ (k = "region" ∧ w = BString (Region m))
    ∨ (k = "version" ∧ w = BInt (Version m))
    ∨ (k = "developer" ∧ w = BString (Developer m))
    ∨ (k = "experimental" ∧ w = BBool (Experimental m)).
Proof.
  split.
  - destruct (split_dot_cons k) as (h & t & Hk). rewrite Hk.
    cbn [lookup_path get marshalMetadata].
    destruct (String.eqb_spec "environment" h) as [<-|_]; cbn [lookup_path].
    { intros [-> ->]%lookup_path_scalar; [|done]. left. by rewrite (split_dot_single _ _ Hk). }
    destruct (String.eqb_spec "region" h) as [<-|_]; cbn [lookup_path].
    { intros [-> ->]%lookup_path_scalar; [|done].
      right; left. by rewrite (split_dot_single _ _ Hk). }
    destruct (String.eqb_spec "version" h) as [<-|_]; cbn [lookup_path].
    { intros [-> ->]%lookup_path_scalar; [|done].
      right; right; left. by rewrite (split_dot_single _ _ Hk). }
    destruct (String.eqb_spec "developer" h) as [<-|_]; cbn [lookup_path].
    { intros [-> ->]%lookup_path_scalar; [|done].
      right; right; right; left. by rewrite (split_dot_single _ _ Hk). }
    destruct (String.eqb_spec "experimental" h) as [<-|_]; cbn [lookup_path]; [|done].
    intros [-> ->]%lookup_path_scalar; [|done].
    right; right; right; right. by rewrite (split_dot_single _ _ Hk).
  - intros [[-> ->]|[[-> ->]|[[-> ->]|[[-> ->]|[-> ->]]]]]; reflexivity.
Qed.

Lemma holds_CEq v o : holds (CEq v) o = true ↔ ∃ w, o = Some w ∧ value_eqb v w = true.
Proof.
  destruct o as [w|]; simpl.
  - split; [by eauto|]. by intros (? & [= <-] & ?).
  - split; [done|]. by intros (? & ? & ?).
Qed.

Lemma parseString_cases v :
  (v = "true" ∧ parseString v = BBool true)
  ∨ (v = "false" ∧ parseString v = BBool false)
  ∨ (v ≠ "true" ∧ v ≠ "false" ∧ parseString v = BString v).
Proof.
  unfold parseString.
  destruct (String.eqb_spec v "true") as [->|?]; [by left|].
  destruct (String.eqb_spec v "false") as [->|?]; [by right; left|].
  by right; right.
Qed.

Lemma metadata_holds_parseString k v d :
  metadata_holds k (parseString v) d
  ↔ (v ≠ "true" ∧ v ≠ "false"
     ∧ ((k = "environment" ∧ Environment (Metadata_ d) = v)
        ∨ (k = "region" ∧ Region (Metadata_ d) = v)
        ∨ (k = "developer" ∧ Developer (Metadata_ d) = v)))
    ∨ (k = "experimental"
       ∧ v = if Experimental (Metadata_ d) then "true" else "false").
Proof.
  unfold metadata_holds. rewrite at_path_metadata, holds_CEq.
  setoid_rewrite metadata_path.
  destruct (parseString_cases v) as [[-> ->]|[[-> ->]|(Ht & Hf & ->)]].
  - setoid_rewrite value_eqb_bool. split.
    + intros (w & Hw & ->). right.
      destruct Hw as [[_ [=]]|[[_ [=]]|[[_ [=]]|[[_ [=]]|[-> [= <-]]]]]]. done.
    + intros [(? & _)|[-> Hv]]; [done|]. exists (BBool true). split; [|done].
      do 4 right. split; [done|]. by destruct (Experimental (Metadata_ d)).
  - setoid_rewrite value_eqb_bool. split.
    + intros (w & Hw & ->). right.
      destruct Hw as [[_ [=]]|[[_ [=]]|[[_ [=]]|[[_ [=]]|[-> [= <-]]]]]]. done.
    + intros [(_ & ? & _)|[-> Hv]]; [done|]. exists (BBool false). split; [|done].
      do 4 right. split; [done|]. by destruct (Experimental (Metadata_ d)).
  - setoid_rewrite value_eqb_string. split.
    + intros (w & Hw & ->). left. split; [done|]. split; [done|].
      destruct Hw as [[-> [= ->]]|[[-> [= ->]]|[[_ [=]]|[[-> [= ->]]|[_ [=]]]]]].
      * by left.
      * by right; left.
      * by right; right.
    + intros [(_ & _ & H)|[_ Hv]].
      * exists (BString v). split; [|done].
        destruct H as [[-> <-]|[[-> <-]|[-> <-]]].
        -- by left.
        -- by right; left.
        -- by do 3 right; left.
      * by destruct (Experimental (Metadata_ d)).
Qed.

(** A lookup carrying a parameter that no record can satisfy. *)
Lemma lookup_dead_parameter ttl now raw s k v vs :
  values_of k raw = v :: vs →
  k ∉ ["service"; "mode"; "environment"; "region"; "developer"; "experimental"] →
  lookup ttl now None None raw s = (mkResponse StatusOK JNull, s).
Proof.
  intros Hv Hk.
  assert (Hks : k ≠ "service" ∧ k ≠ "mode" ∧ k ≠ "environment" ∧ k ≠ "region"
                ∧ k ≠ "developer" ∧ k ≠ "experimental").
  { repeat split; intros ->; apply Hk; repeat (try (left; done); right). }
  destruct Hks as (Hs & Hm & He & Hr & Hd & Hx).
  rewrite lookup_response.
  assert (Hnone : List.filter (matches (lookup_filter ttl now raw)) (registry s) = []).
  { induction (registry s) as [|d l IH]; simpl; [done|].
    destruct (matches (lookup_filter ttl now raw) d) eqn:Hmatch; [|done].
    exfalso. unfold lookup_filter in Hmatch. cbv zeta in Hmatch.
    apply find_filter_matches in Hmatch as [(_ & _ & Hmd) _].
    assert (Hmk : lookup_metadata (URL_Query raw) !! k = Some (parseString v)).
    { rewrite lookup_metadata_lookup, URL_Query_lookup, Hv.
      apply String.eqb_neq in Hs, Hm. by rewrite Hs, Hm. }
    apply Hmd, metadata_holds_parseString in Hmk.
    destruct Hmk as [(_ & _ & [[? _]|[[? _]|[? _]]])|[? _]]; done. }
  by rewrite Hnone.
Qed.

End metadata_facts.

(** X10.  What a metadata parameter of [GET /lookup] can select.  The
    constraint built from a parameter [k=v] holds of a record exactly when
    [k] is [environment], [region] or [developer], [v] is neither ["true"]
    nor ["false"], and the field equals [v]; or [k] is [experimental] and
    [v] is the field written as ["true"] or ["false"].  So a parameter
    [version], or any parameter that is not one of these four fields (nor
    [service], [mode]), is satisfied by no record: a lookup that carries
    one is answered 200 with [null], whatever the store holds. *)
Theorem http_metadata_filter (ttl now : Z) (raw : list (string * string)) (s : Server) :
  (∀ k v d,
     metadata_holds k (parseString v) d
     ↔ (v ≠ "true" ∧ v ≠ "false"
        ∧ ((k = "environment" ∧ Environment (Metadata_ d) = v)
           ∨ (k = "region" ∧ Region (Metadata_ d) = v)
           ∨ (k = "developer" ∧ Developer (Metadata_ d) = v)))
       ∨ (k = "experimental"
          ∧ v = if Experimental (Metadata_ d) then "true" else "false"))
  ∧ (∀ k v vs,
       values_of k raw = v :: vs →
       k ∉ ["service"; "mode"; "environment"; "region"; "developer"; "experimental"] →
       lookup ttl now None None raw s = (mkResponse StatusOK JNull, s)).
Proof.
  split; [apply metadata_holds_parseString|].
  intros k v vs. apply lookup_dead_parameter.
Qed.

Lemma http_metadata_filter_witness :
  (values_of "version" [("service", "order-service"); ("version", "1")] = ["1"]
   ∧ "version" ∉ ["service"; "mode"; "environment"; "region"; "developer"; "experimental"])
  ∧ lookup heartbeatTTL (110 * Second) None None [("service", "order-service"); ("version", "1")]
           (mkServer [stamped (100 * Second) order_o1] empty_hub)
    = (mkResponse StatusOK JNull, mkServer [stamped (100 * Second) order_o1] empty_hub).
Proof.
  assert (H1 : values_of "version" [("service", "order-service"); ("version", "1")] = ["1"])
    by reflexivity.
  assert (H2 : "version" ∉ ["service"; "mode"; "environment"; "region"; "developer";
                            "experimental"]).
  { apply (bool_decide_unpack _). reflexivity. }
  split; [done|].
  exact (proj2 (http_metadata_filter heartbeatTTL (110 * Second)
                  [("service", "order-service"); ("version", "1")]
                  (mkServer [stamped (100 * Second) order_o1] empty_hub)) "version" "1" [] H1 H2).
Defined.

(* ===================================================================== *)
(** ** The hub: order of iteration, repeated broadcasts, non-subscribers *)
(* ===================================================================== *)

Section hub_facts.

(** A connection that is not in the set is never written to, closed or
    added, in whatever order and however often keys are visited. *)
Lemma broadcast_outside msg order h c :
  c ∉ clients h →
  conns (BroadcastMessage_in order msg h) c = conns h c
  ∧ c ∉ clients (BroadcastMessage_in order msg h).
Proof.
  unfold BroadcastMessage_in. revert h.
  induction order as [|a order IH]; intros h Hc; [done|]. simpl.
  destruct (decide (a = c)) as [->|Hne].
  - rewrite broadcast_step_absent by done. by apply IH.
  - destruct (broadcast_step_other msg h a c) as [Hconn Hcl]; [done|].
    destruct (IH (broadcast_step msg h a)) as [-> Hout]; [by rewrite Hcl|].
    by rewrite Hconn.
Qed.

Lemma outcome_writable msg h h' c :
  broadcast_outcome msg h h' → c ∈ clients h' →
  c ∈ clients h ∧ writable (conns h c) = true ∧ writable (conns h' c) = true
  ∧ sent (conns h' c) = sent (conns h c) ++ [msg].
Proof.
  intros (Hfail & Hok & Hout) Hc.
  destruct (decide (c ∈ clients h)) as [Hin|Hnin]; [|by destruct (Hout c Hnin)].
  destruct (writable (conns h c)) eqn:Hw; [|by destruct (Hfail c Hin Hw)].
  destruct (Hok c Hin Hw) as [_ Hst]. rewrite Hst. by repeat split.
Qed.

Lemma outcome_unique msg h h1 h2 :
  broadcast_outcome msg h h1 → broadcast_outcome msg h h2 →
  clients h1 = clients h2 ∧ ∀ c, conns h1 c = conns h2 c.
Proof.
  intros (Hfail1 & Hok1 & Hout1) (Hfail2 & Hok2 & Hout2). split.
  - apply set_eq. intros c.
    destruct (decide (c ∈ clients h)) as [Hin|Hnin].
    + destruct (writable (conns h c)) eqn:Hw.
      * destruct (Hok1 c Hin Hw), (Hok2 c Hin Hw). tauto.
      * destruct (Hfail1 c Hin Hw), (Hfail2 c Hin Hw). tauto.
    + destruct (Hout1 c Hnin), (Hout2 c Hnin). tauto.
  - intros c. destruct (decide (c ∈ clients h)) as [Hin|Hnin].
    + destruct (writable (conns h c)) eqn:Hw.
      * destruct (Hok1 c Hin Hw) as [_ ->], (Hok2 c Hin Hw) as [_ ->]. done.
      * destruct (Hfail1 c Hin Hw) as [_ ->], (Hfail2 c Hin Hw) as [_ ->]. done.
    + destruct (Hout1 c Hnin) as [_ ->], (Hout2 c Hnin) as [_ ->]. done.
Qed.

End hub_facts.

(** X11.  The result of [BroadcastMessage] does not depend on the order in
    which Go ranges over the [clients] map: two iteration orders leave the
    same set of subscribers and the same state of every connection. *)
Theorem BroadcastMessage_order_independent (msg : ServiceUpdate) (h : Hub)
        (order1 order2 : list nat) :
  NoDup order1 → (∀ c, c ∈ order1 ↔ c ∈ clients h) →
  NoDup order2 → (∀ c, c ∈ order2 ↔ c ∈ clients h) →
  clients (BroadcastMessage_in order1 msg h) = clients (BroadcastMessage_in order2 msg h)
  ∧ ∀ c, conns (BroadcastMessage_in order1 msg h) c
         = conns (BroadcastMessage_in order2 msg h) c.
Proof.
  intros Hnd1 Ho1 Hnd2 Ho2.
  apply (outcome_unique msg h); by apply broadcast_in_outcome.
Qed.

Lemma BroadcastMessage_order_independent_witness :
  let msg := mkServiceUpdate ActionHeartbeat (stamped (100 * Second) order_o1) in
  (NoDup [1; 2; 3]%nat ∧ (∀ c, c ∈ [1; 2; 3]%nat ↔ c ∈ clients three_clients)
   ∧ NoDup [3; 2; 1]%nat ∧ (∀ c, c ∈ [3; 2; 1]%nat ↔ c ∈ clients three_clients))
  ∧ clients (BroadcastMessage_in [1; 2; 3]%nat msg three_clients)
    = clients (BroadcastMessage_in [3; 2; 1]%nat msg three_clients).
Proof.
  intros msg.
  assert (H1 : NoDup [1; 2; 3]%nat) by (apply (bool_decide_unpack _); reflexivity).
  assert (H3 : NoDup [3; 2; 1]%nat) by (apply (bool_decide_unpack _); reflexivity).
  assert (H2 : ∀ c, c ∈ [1; 2; 3]%nat ↔ c ∈ clients three_clients).
  { intros c. unfold three_clients. cbn [clients].
    rewrite !elem_of_cons, elem_of_nil, !elem_of_union, !elem_of_singleton. tauto. }
  assert (H4 : ∀ c, c ∈ [3; 2; 1]%nat ↔ c ∈ clients three_clients).
  { intros c. unfold three_clients. cbn [clients].
    rewrite !elem_of_cons, elem_of_nil, !elem_of_union, !elem_of_singleton. tauto. }
  split; [done|].
  exact (proj1 (BroadcastMessage_order_independent msg three_clients
                  [1; 2; 3]%nat [3; 2; 1]%nat H1 H2 H3 H4)).
Defined.

(** X12.  After a broadcast every remaining subscriber has a writable
    connection; a second broadcast therefore drops nobody, and every
    remaining subscriber has received the two messages, in order, after
    what it had received before. *)
Theorem BroadcastMessage_twice (m1 m2 : ServiceUpdate) (h : Hub)
        (order1 order2 : list nat) :
  let h1 := BroadcastMessage_in order1 m1 h in
  let h2 := BroadcastMessage_in order2 m2 h1 in
  NoDup order1 → (∀ c, c ∈ order1 ↔ c ∈ clients h) →
  NoDup order2 → (∀ c, c ∈ order2 ↔ c ∈ clients h1) →
  (∀ c, c ∈ clients h1 → writable (conns h1 c) = true)
  ∧ clients h2 = clients h1
  ∧ (∀ c, c ∈ clients h1 → sent (conns h2 c) = sent (conns h c) ++ [m1; m2]).
Proof.
  intros h1 h2 Hnd1 Ho1 Hnd2 Ho2.
  pose proof (broadcast_in_outcome m1 order1 h Hnd1 Ho1) as Hout1.
  pose proof (broadcast_in_outcome m2 order2 h1 Hnd2 Ho2) as Hout2.
  fold h1 in Hout1. fold h2 in Hout2.
  assert (Hw : ∀ c, c ∈ clients h1 → writable (conns h1 c) = true).
  { intros c Hc. by destruct (outcome_writable m1 h h1 c Hout1 Hc) as (_ & _ & ? & _). }
  split; [done|]. split.
  - apply set_eq. intros c. split.
    + intros Hc. by destruct (outcome_writable m2 h1 h2 c Hout2 Hc).
    + intros Hc. destruct Hout2 as (_ & Hok & _). by destruct (Hok c Hc (Hw c Hc)).
  - intros c Hc. destruct Hout2 as (_ & Hok & _).
    destruct (Hok c Hc (Hw c Hc)) as [_ ->]. simpl.
    destruct (outcome_writable m1 h h1 c Hout1 Hc) as (_ & _ & _ & ->).
    by rewrite <-app_assoc.
Qed.

Lemma BroadcastMessage_twice_witness :
  let m1 := mkServiceUpdate ActionRegister (stamped (100 * Second) order_o1) in
  let m2 := mkServiceUpdate ActionHeartbeat (stamped (110 * Second) order_o1) in
  let h1 := BroadcastMessage_in [1; 2; 3]%nat m1 three_clients in
  (NoDup [1; 2; 3]%nat ∧ (∀ c, c ∈ [1; 2; 3]%nat ↔ c ∈ clients three_clients)
   ∧ NoDup [3; 1]%nat ∧ (∀ c, c ∈ [3; 1]%nat ↔ c ∈ clients h1))
  ∧ clients (BroadcastMessage_in [3; 1]%nat m2 h1) = clients h1.
Proof.
  intros m1 m2 h1.
  assert (H1 : NoDup [1; 2; 3]%nat) by (apply (bool_decide_unpack _); reflexivity).
  assert (H3 : NoDup [3; 1]%nat) by (apply (bool_decide_unpack _); reflexivity).
  assert (H2 : ∀ c, c ∈ [1; 2; 3]%nat ↔ c ∈ clients three_clients).
  { intros c. unfold three_clients. cbn [clients].
    rewrite !elem_of_cons, elem_of_nil, !elem_of_union, !elem_of_singleton. tauto. }
  assert (H4 : ∀ c, c ∈ [3; 1]%nat ↔ c ∈ clients h1).
  { destruct (broadcast_in_outcome m1 [1; 2; 3]%nat three_clients H1 H2)
      as (Hfail & Hok & Hnot). fold h1 in Hfail, Hok, Hnot.
    assert (I1 : 1%nat ∈ clients three_clients) by (apply H2; left).
    assert (I2 : 2%nat ∈ clients three_clients) by (apply H2; right; left).
    assert (I3 : 3%nat ∈ clients three_clients) by (apply H2; right; right; left).
    intros c. rewrite !elem_of_cons, elem_of_nil. split.
    - intros [->|[->|[]]].
      + by destruct (Hok 3%nat I3 eq_refl).
      + by destruct (Hok 1%nat I1 eq_refl).
    - intros Hc. destruct (decide (c ∈ clients three_clients)) as [Hin|Hnin].
      + apply H2 in Hin. rewrite !elem_of_cons, elem_of_nil in Hin.
        destruct Hin as [->|[->|[->|[]]]]; [by right; left| |by left].
        by destruct (Hfail 2%nat I2 eq_refl).
      + by destruct (Hnot c Hnin). }
  split; [done|].
  pose proof (BroadcastMessage_twice m1 m2 three_clients [1; 2; 3]%nat [3; 1]%nat) as T.
  cbv zeta in T. exact (proj1 (proj2 (T H1 H2 H3 H4))).
Defined.

(** X13.  A broadcast reaches subscribers only: a connection that is not
    in the set is not written to, not closed and not added, whatever keys
    are visited, so the set can only shrink; in particular nothing is
    written to a connection once [HandleWebSocket] has removed it. *)
Theorem BroadcastMessage_subscribers_only (msg : ServiceUpdate) (order : list nat) (h : Hub) :
  (∀ c, c ∉ clients h →
        conns (BroadcastMessage_in order msg h) c = conns h c
        ∧ (c ∉ clients (BroadcastMessage_in order msg h)))
  ∧ clients (BroadcastMessage_in order msg h) ⊆ clients h
  ∧ (∀ c, conns (BroadcastMessage_in order msg (disconnect c h)) c
          = mkConnState (broken (conns h c)) true (sent (conns h c))).
Proof.
  split; [intros c; apply broadcast_outside|]. split.
  - intros c Hc. destruct (decide (c ∈ clients h)) as [|Hnin]; [done|].
    by destruct (broadcast_outside msg order h c Hnin).
  - intros c.
    destruct (broadcast_outside msg order (disconnect c h) c) as [-> _].
    + unfold disconnect, delete_client. cbn [clients].
      rewrite elem_of_difference, elem_of_singleton. tauto.
    + unfold disconnect, delete_client, Close. cbn [conns].
      by rewrite fn_lookup_insert.
Qed.

(* ===================================================================== *)
(** ** The Go client: validation against the server's *)
(* ===================================================================== *)

Section sdk_validation_facts.

Lemma TrimSpace_nonempty s : sdk.TrimSpace_empty s = false → s ≠ "".
Proof. by intros H ->. Qed.

Lemma is_env_spec s :
  sdk.is_env s = true ↔ s = "dev" ∨ s = "staging" ∨ s = "prod".
Proof.
  unfold sdk.is_env, sdk.EnvDev, sdk.EnvStaging, sdk.EnvProd.
  rewrite !orb_true_iff, !String.eqb_eq. tauto.
Qed.

(** What an instance the client accepts looks like. *)
Lemma sdk_validateInstance_spec inst :
  sdk.validateInstance inst = None
  ↔ sdk.TrimSpace_empty (ServiceName inst) = false
    ∧ sdk.TrimSpace_empty (ID inst) = false
    ∧ sdk.TrimSpace_empty (Host inst) = false
    ∧ 1 ≤ Port inst ≤ 65535
    ∧ (Mode inst = "dev" ∨ Mode inst = "staging" ∨ Mode inst = "prod")
    ∧ (Environment (Metadata_ inst) = "dev" ∨ Environment (Metadata_ inst) = "staging"
       ∨ Environment (Metadata_ inst) = "prod")
    ∧ sdk.TrimSpace_empty (Region (Metadata_ inst)) = false
    ∧ 0 ≤ Version (Metadata_ inst).
Proof.
  unfold sdk.validateInstance, sdk.validateMetadata.
  rewrite <-!is_env_spec.
  destruct (sdk.TrimSpace_empty (ServiceName inst)); [by split; [|intros (? & _)]|].
  destruct (sdk.TrimSpace_empty (ID inst)); [by split; [|intros (_ & ? & _)]|].
  destruct (sdk.TrimSpace_empty (Host inst)); [by split; [|intros (_ & _ & ? & _)]|].
  destruct (Z.ltb_spec (Port inst) 1); simpl;
    [split; [done|intros (_ & _ & _ & ? & _); lia]|].
  destruct (Z.ltb_spec 65535 (Port inst)); simpl;
    [split; [done|intros (_ & _ & _ & ? & _); lia]|].
  destruct (sdk.is_env (Mode inst)); simpl;
    [|by split; [|intros (_ & _ & _ & _ & ? & _)]].
  destruct (sdk.is_env (Environment (Metadata_ inst))); simpl;
    [|by split; [|intros (_ & _ & _ & _ & _ & ? & _)]].
  destruct (sdk.TrimSpace_empty (Region (Metadata_ inst)));
    [by split; [|intros (_ & _ & _ & _ & _ & _ & ? & _)]|].
  destruct (Z.ltb_spec (Version (Metadata_ inst)) 0).
  - split; [done|]. intros (_ & _ & _ & _ & _ & _ & _ & ?). lia.
  - split; [|done]. intros _. repeat split; try done; lia.
Qed.

Lemma register_invalid now fault inst s :
  validInstance inst = false →
  register now fault (Some inst) s
  = (mkResponse StatusBadRequest (JError EValidation), s).
Proof. intros Hv. unfold register, ShouldBindJSON. by rewrite Hv. Qed.

End sdk_validation_facts.

(** X14.  The Go client's [validateInstance] against the server's binding
    tags.  An instance the client accepts is accepted by the server
    whenever its version is not 0, and [Register] then returns no error
    and leaves the server with the stored record.  Version 0 passes the
    client's check ("non-negative") but breaks the server's [required]
    tag: [Register] then always fails with status 400 and the server is
    unchanged. *)
Theorem sdk_validation_vs_server (inst : Instance) :
  sdk.validateInstance inst = None →
  (Version (Metadata_ inst) ≠ 0 →
   validInstance inst = true
   ∧ ∀ now c h, sdk.Register now None inst (mkServer c h)
                = (None, mkServer (snd (Register now None inst c)) h))
  ∧ (Version (Metadata_ inst) = 0 →
     validInstance inst = false
     ∧ ∀ now fault s, sdk.Register now fault inst s = (Some (sdk.ErrStatus 400), s)).
Proof.
  intros Hsdk. pose proof Hsdk as Hfields.
  apply sdk_validateInstance_spec in Hfields
    as (Hs & Hi & Hh & Hp & Hm & He & Hr & Hver).
  apply TrimSpace_nonempty in Hs, Hi, Hh, Hr.
  split.
  - intros Hne.
    assert (Hv : validInstance inst = true).
    { apply validInstance_spec. repeat split; try done. lia. }
    split; [done|]. intros now c h. unfold sdk.Register.
    by rewrite Hsdk, register_valid.
  - intros H0.
    assert (Hv : validInstance inst = false).
    { apply not_true_is_false. intros Hv%validInstance_spec.
      by destruct Hv as (_ & _ & _ & _ & _ & _ & _ & ?). }
    split; [done|]. intros now fault s. unfold sdk.Register.
    by rewrite Hsdk, register_invalid.
Qed.

Lemma sdk_validation_vs_server_witness :
  let v0 := setMetadata (mkMetadata "dev" "us-east" 0 "" false) order_o1 in
  (sdk.validateInstance v0 = None ∧ Version (Metadata_ v0) = 0)
  ∧ sdk.Register (100 * Second) None v0 new_server = (Some (sdk.ErrStatus 400), new_server).
Proof.
  intros v0.
  assert (H1 : sdk.validateInstance v0 = None) by reflexivity.
  assert (H2 : Version (Metadata_ v0) = 0) by reflexivity.
  split; [done|].
  exact (proj2 (proj2 (sdk_validation_vs_server v0 H1) H2) 100 None new_server).
Defined.

(* ===================================================================== *)
(** ** The Go client: the query of a lookup as the server reads it *)
(* ===================================================================== *)

Section sdk_lookup_facts.

Lemma Lookup_params_lookup (f : sdk.LookupFilter) k :
  sdk.Lookup_params f !! k
  = match sdk.Metadata f !! k with
    | Some (sdk.AString v) => Some v
    | Some (sdk.AInt v) => Some (sdk.Sprintf_d v)
    | Some (sdk.ABool v) => Some (sdk.Sprintf_t v)
    | _ => (if negb (String.eqb (sdk.Service f) "")
            then <["service" := sdk.Service f]> (∅ : gmap string string)
            else ∅) !! k
    end.
Proof.
  unfold sdk.Lookup_params. cbv zeta.
  set (base := if negb (String.eqb (sdk.Service f) "")
               then <["service" := sdk.Service f]> (∅ : gmap string string) else ∅).
  revert k.
  apply (map_fold_weak_ind (λ (r : gmap string string) (m : gmap string sdk.any), ∀ k,
    r !! k = match m !! k with
             | Some (sdk.AString v) => Some v
             | Some (sdk.AInt v) => Some (sdk.Sprintf_d v)
             | Some (sdk.ABool v) => Some (sdk.Sprintf_t v)
             | _ => base !! k
             end)).
  - intros k. by rewrite lookup_empty.
  - intros i x m r Hi IH k. destruct (decide (i = k)) as [->|Hne].
    + rewrite lookup_insert_eq.
      destruct x; rewrite ?lookup_insert_eq; try done.
      by rewrite IH, Hi.
    + rewrite (lookup_insert_ne m) by done.
      destruct x; rewrite ?lookup_insert_ne by done; apply IH.
Qed.

Lemma values_of_nodup (l : list (string * string)) k :
  NoDup (l.*1) →
  (∀ v, (k, v) ∈ l → values_of k l = [v]) ∧ (k ∉ l.*1 → values_of k l = []).
Proof.
  induction l as [|[k' v'] l IH]; intros Hnd.
  - split; [by intros v ?%elem_of_nil|done].
  - rewrite fmap_cons in Hnd. apply NoDup_cons in Hnd as [Hk' Hnd].
    destruct (IH Hnd) as [IH1 IH2]. rewrite values_of_cons. split.
    + intros v [[= -> ->]|Hin]%elem_of_cons.
      * rewrite String.eqb_refl. by rewrite IH2.
      * destruct (String.eqb_spec k' k) as [->|_]; [|by apply IH1].
        destruct Hk'. apply list_elem_of_fmap. by exists (k, v).
    + rewrite fmap_cons. intros [Hne Hout]%not_elem_of_cons. simpl in Hne.
      destruct (String.eqb_spec k' k) as [->|_]; [done|]. by apply IH2.
Qed.

(** A query string in which every key occurs once. *)
Lemma values_of_unique raw (m : gmap string string) k :
  raw ≡ₚ map_to_list m →
  values_of k raw = match m !! k with Some v => [v] | None => [] end.
Proof.
  intros Hp.
  assert (Hnd : NoDup (raw.*1)).
  { rewrite Hp. apply NoDup_fst_map_to_list. }
  destruct (values_of_nodup raw k Hnd) as [H1 H2].
  destruct (m !! k) as [v|] eqn:E.
  - apply H1. rewrite Hp. by apply elem_of_map_to_list.
  - apply H2. intros ([k' v] & Hk & Hin)%list_elem_of_fmap. simpl in Hk. subst k'.
    rewrite Hp in Hin. apply elem_of_map_to_list in Hin. congruence.
Qed.

Lemma lookup_filter_metadata ttl now raw k :
  k ≠ "service" → k ≠ "mode" →
  lookup_filter ttl now raw !! ("metadata." +:+ k)
  = (λ vs, CEq (parseString (hd "" vs))) <$> URL_Query raw !! k.
Proof.
  intros Hs%String.eqb_neq Hm%String.eqb_neq. apply option_eq. intros c.
  unfold lookup_filter. cbv zeta. rewrite find_filter_lookup. split.
  - intros [(Hp & _)|[(k' & v & Hp & Hk & ->)|[(Hp & _)|(Hp & _)]]];
      try (by apply metadata_path_fresh in Hp).
    apply (inj _) in Hp. subst k'.
    rewrite lookup_metadata_lookup, Hs, Hm in Hk. simpl in Hk.
    destruct (URL_Query raw !! k); simpl in *; congruence.
  - intros H. right; left.
    destruct (URL_Query raw !! k) as [vs|] eqn:E; simpl in H; [|done].
    injection H as <-. exists k, (parseString (hd "" vs)).
    split; [done|]. split; [|done].
    by rewrite lookup_metadata_lookup, Hs, Hm, E.
Qed.

Lemma Sprintf_d_not_bool n : sdk.Sprintf_d n ≠ "true" ∧ sdk.Sprintf_d n ≠ "false".
Proof.
  unfold sdk.Sprintf_d, NilZero.string_of_int, NilZero.string_of_uint.
  destruct (Z.to_int n) as [d|d]; destruct d; simpl; split; discriminate.
Qed.

End sdk_lookup_facts.

(** X15.  What the server makes of a lookup of the Go client, the query
    string carrying the client's parameters once each.  For a metadata key
    other than [service] and [mode]: a boolean value arrives as the same
    boolean; an integer arrives as the string of its decimal digits; a
    string arrives as itself unless it reads ["true"] or ["false"], which
    become booleans.  So a filter on [version], an integer in every stored
    record, can match nothing: such a lookup returns the nil slice and no
    error, whatever the server holds. *)
Theorem sdk_Lookup_filter (ttl now : Z) (f : sdk.LookupFilter)
        (raw : list (string * string)) :
  raw ≡ₚ map_to_list (sdk.Lookup_params f) →
  (∀ k, k ≠ "service" → k ≠ "mode" →
        lookup_filter ttl now raw !! ("metadata." +:+ k)
        = match sdk.Metadata f !! k with
          | Some (sdk.ABool b) => Some (CEq (BBool b))
          | Some (sdk.AInt n) => Some (CEq (BString (sdk.Sprintf_d n)))
          | Some (sdk.AString v) => Some (CEq (parseString v))
          | _ => None
          end)
  ∧ (sdk.Metadata f !! "service" = None →
     Query (URL_Query raw) "service" = sdk.Service f)
  ∧ (∀ n s, sdk.Metadata f !! "version" = Some (sdk.AInt n) →
            sdk.Lookup ttl now raw s = (NilSlice, None)).
Proof.
  intros Hp. split; [|split].
  - intros k Hs Hm. rewrite lookup_filter_metadata by done.
    rewrite URL_Query_lookup, (values_of_unique raw _ k Hp), Lookup_params_lookup.
    destruct (sdk.Metadata f !! k) as [[v|n|b|]|] eqn:E; simpl; try done.
    + destruct (Sprintf_d_not_bool n). by rewrite parseString_other.
    + by destruct b.
    + destruct (negb _); [|done]. by rewrite lookup_insert_ne.
    + destruct (negb _); [|done]. by rewrite lookup_insert_ne.
  - intros Hnone. rewrite Query_first, (values_of_unique raw _ "service" Hp).
    rewrite Lookup_params_lookup, Hnone.
    destruct (String.eqb_spec (sdk.Service f) "") as [->|Hne]; simpl; [done|].
    by rewrite lookup_insert_eq.
  - intros n s Hver. unfold sdk.Lookup.
    rewrite (lookup_dead_parameter ttl now raw s "version" (sdk.Sprintf_d n) []); [done| |].
    + rewrite (values_of_unique raw _ "version" Hp), Lookup_params_lookup. by rewrite Hver.
    + apply (bool_decide_unpack _). reflexivity.
Qed.

Lemma sdk_Lookup_filter_witness :
  let f := sdk.mkLookupFilter "order-service" {[ "version" := sdk.AInt 1 ]} in
  map_to_list (sdk.Lookup_params f) ≡ₚ map_to_list (sdk.Lookup_params f)
  ∧ sdk.Lookup heartbeatTTL (110 * Second) (map_to_list (sdk.Lookup_params f))
               (mkServer [stamped (100 * Second) order_o1] empty_hub)
    = (NilSlice, None).
Proof.
  intros f.
  assert (H : map_to_list (sdk.Lookup_params f) ≡ₚ map_to_list (sdk.Lookup_params f))
    by reflexivity.
  split; [exact H|].
  exact (proj2 (proj2 (sdk_Lookup_filter heartbeatTTL (110 * Second) f _ H)) 1
               (mkServer [stamped (100 * Second) order_o1] empty_hub) eq_refl).
Defined.

(* ===================================================================== *)
(** ** The Go client: the heartbeat loop *)
(* ===================================================================== *)

Section sdk_heartbeat_facts.

Lemma sdk_Heartbeat_absent now fault sn id s :
  Forall (λ d, ¬ has_key sn id d) (registry s) →
  sdk.Heartbeat now fault sn id s = (Some (sdk.ErrStatus 404), s).
Proof.
  intros Hall. unfold sdk.Heartbeat, heartbeat. destruct fault as [e|].
  - simpl. by rewrite server_eta.
  - rewrite UpdateHeartbeat_absent by done. simpl. by rewrite server_eta.
Qed.


Lemma run_ticks_stopped ticks cfg f sn id s :
  run_ticks ticks (sdk.mkClient cfg false f sn id, s)
  = (sdk.mkClient cfg false f sn id, s).
Proof. unfold run_ticks. induction ticks as [|t ticks IH]; [done|]. simpl. apply IH. Qed.

Lemma run_ticks_cons t ticks cs :
  run_ticks (t :: ticks) cs = run_ticks ticks (sdk.heartbeat_tick t.1 t.2 cs).
Proof. reflexivity. Qed.

Lemma heartbeat_tick_absent cfg sn id s now fault k :
  sn ≠ "" → id ≠ "" →
  Forall (λ d, ¬ has_key sn id d) (registry s) →
  sdk.heartbeat_tick now fault (sdk.mkClient cfg true k sn id, s)
  = (if sdk.MaxHeartbeatFailures cfg <=? k + 1
     then sdk.mkClient cfg false 0 "" ""
     else sdk.mkClient cfg true (k + 1) sn id, s).
Proof.
  intros Hsn%String.eqb_neq Hid%String.eqb_neq Hall. unfold sdk.heartbeat_tick.
  cbn [sdk.heartbeatTicker sdk.currentServiceName sdk.currentInstanceID negb].
  rewrite Hsn, Hid. cbn [orb]. rewrite sdk_Heartbeat_absent by done.
  cbn [sdk.config sdk.heartbeatFailures sdk.heartbeatTicker
       sdk.currentServiceName sdk.currentInstanceID].
  by destruct (sdk.MaxHeartbeatFailures cfg <=? k + 1).
Qed.


(** The loop against a server that does not know the instance. *)
Lemma run_ticks_absent cfg sn id s ticks k :
  sn ≠ "" → id ≠ "" →
  Forall (λ d, ¬ has_key sn id d) (registry s) →
  0 ≤ k < sdk.MaxHeartbeatFailures cfg →
  run_ticks ticks (sdk.mkClient cfg true k sn id, s)
  = (if k + Z.of_nat (length ticks) <? sdk.MaxHeartbeatFailures cfg
     then sdk.mkClient cfg true (k + Z.of_nat (length ticks)) sn id
     else sdk.mkClient cfg false 0 "" "", s).
Proof.
  intros Hsn Hid Hall. revert k.
  induction ticks as [|[now fault] ticks IH]; intros k Hk.
  - simpl. rewrite Z.add_0_r.
    by destruct (Z.ltb_spec k (sdk.MaxHeartbeatFailures cfg)); [|lia].
  - rewrite run_ticks_cons. cbn [fst snd]. rewrite heartbeat_tick_absent by done.
    rewrite length_cons.
    destruct (Z.leb_spec (sdk.MaxHeartbeatFailures cfg) (k + 1)) as [Hmax|Hlt].
    + rewrite run_ticks_stopped.
      by destruct (Z.ltb_spec (k + Z.of_nat (S (length ticks)))
                              (sdk.MaxHeartbeatFailures cfg)); [lia|].
    + rewrite IH by lia.
      replace (k + 1 + Z.of_nat (length ticks)) with (k + Z.of_nat (S (length ticks)))
        by lia.
      done.
Qed.

Lemma last_cons_default {A} (t : A) times d : List.last (t :: times) d = List.last times t.
Proof.
  revert t d. induction times as [|t' times IH]; intros t d; [done|].
  change (List.last (t :: t' :: times) d) with (List.last (t' :: times) d).
  by rewrite !IH.
Qed.




Lemma last_beat_beats times t0 : last_beat t0 (Beat <$> times) = List.last times t0.
Proof.
  revert t0. induction times as [|t times IH]; intros t0; [done|].
  rewrite fmap_cons, last_cons_default. apply IH.
Qed.

Lemma in_time_beats times t0 : in_time t0 (Beat <$> times) = true.
Proof. revert t0. induction times as [|t times IH]; intros t0; [done|]. apply IH. Qed.




End sdk_heartbeat_facts.


(** X16.  The heartbeat loop gives up and never registers again.  Started
    for an instance the server does not hold (never registered, or swept
    after its TTL), every tick fails, whether the store works or not;
    the server is left as it is; the failure count is the number of ticks
    until it reaches [MaxHeartbeatFailures], at which point the loop has
    stopped, with [GetHeartbeatStatus] back to [(false, 0)]: the instance
    stays unregistered. *)
Theorem heartbeat_loop_gives_up (c0 : sdk.Client) (sn id : string) (s : Server)
        (ticks : list (Z * option error)) :
  sn ≠ "" → id ≠ "" → 1 ≤ sdk.MaxHeartbeatFailures (sdk.config c0) →
  Forall (λ d, ¬ has_key sn id d) (registry s) →
  let cs := run_ticks ticks (sdk.StartHeartbeat sn id c0, s) in
  snd cs = s
  ∧ sdk.GetHeartbeatStatus (fst cs)
    = (if Z.of_nat (length ticks) <? sdk.MaxHeartbeatFailures (sdk.config c0)
       then (true, Z.of_nat (length ticks)) else (false, 0)).
Proof.
  intros Hsn Hid Hmax Hall cs. unfold cs, sdk.StartHeartbeat, sdk.StopHeartbeat.
  cbn [sdk.config]. rewrite run_ticks_absent by (try done; lia).
  rewrite Z.add_0_l. split; [done|].
  by destruct (Z.of_nat (length ticks) <? sdk.MaxHeartbeatFailures (sdk.config c0)).
Qed.

Lemma heartbeat_loop_gives_up_witness :
  let c0 := sdk.mkClient (sdk.DefaultConfig "http://localhost:4000") false 0 "" "" in
  let ticks := [(10 * Second, None); (20 * Second, Some (ErrBackend "timeout"));
                (30 * Second, None); (40 * Second, None)] in
  ("order-service" ≠ "" ∧ "o1" ≠ "" ∧ 1 ≤ sdk.MaxHeartbeatFailures (sdk.config c0)
   ∧ Forall (λ d, ¬ has_key "order-service" "o1" d) (registry new_server))
  ∧ sdk.GetHeartbeatStatus
      (fst (run_ticks ticks (sdk.StartHeartbeat "order-service" "o1" c0, new_server)))
    = (false, 0).
Proof.
  intros c0 ticks.
  assert (H1 : "order-service" ≠ "") by discriminate.
  assert (H2 : "o1" ≠ "") by discriminate.
  assert (H3 : 1 ≤ sdk.MaxHeartbeatFailures (sdk.config c0)) by (simpl; lia).
  assert (H4 : Forall (λ d, ¬ has_key "order-service" "o1" d) (registry new_server))
    by apply Forall_nil_2.
  split; [done|].
  pose proof (heartbeat_loop_gives_up c0 "order-service" "o1" new_server ticks
                H1 H2 H3 H4) as T.
  cbv zeta in T. exact (proj2 T).
Defined.



(** Without that, the record is swept between two heartbeats, the next
    heartbeat is answered 404 and counted as a failure, and after
    [MaxHeartbeatFailures] of them the loop has stopped, the instance
    staying unregistered. *)
Example AutoRegister_swept_between_beats :
  let c0 := sdk.mkClient (sdk.DefaultConfig "http://localhost:4000") false 0 "" "" in
  let started := snd (sdk.AutoRegister (100 * Second) None order_o1 (c0, new_server)) in
  let late := [Sweep (140 * Second) None; Beat (145 * Second)] in
  in_time (100 * Second) late = false
  ∧ sdk.GetHeartbeatStatus (fst (run late started)) = (true, 1)
  ∧ registry (snd (run late started)) = []
  ∧ sdk.GetHeartbeatStatus
      (fst (run (late ++ [Beat (150 * Second); Beat (155 * Second)]) started))
    = (false, 0).
Proof. by vm_compute. Qed.

(* ===================================================================== *)
(** ** The dashboard: reconnection back-off *)
(* ===================================================================== *)

(** X18.  [attemptReconnect] of the dashboard, its counters non-negative
    and within the exact integers of JavaScript.  It schedules a reconnect
    exactly while fewer than [maxReconnectAttempts] attempts have been
    made since the last successful open; the delay is
    [min(1000 * 2^attempts, 30000)] for the new count of attempts, so
    between 2 and 30 seconds.  From a fresh dashboard the delays are 2, 4,
    8, 16 and 30 seconds, after which it gives up for good; [onopen]
    starts the count again. *)
Theorem dashboard_reconnect (d : ui.Dashboard) :
  0 ≤ ui.reconnectAttempts d → ui.maxReconnectAttempts d ≤ ui.MAX_SAFE_INTEGER →
  (ui.reconnectAttempts d < ui.maxReconnectAttempts d →
   ∃ delay, ui.attemptReconnect d
            = (Some delay, ui.mkDashboard (ui.reconnectAttempts d + 1)
                                          (ui.maxReconnectAttempts d))
            ∧ delay = Z.min (1000 * 2 ^ (ui.reconnectAttempts d + 1)) 30000
            ∧ 2000 ≤ delay ≤ 30000)
  ∧ (ui.maxReconnectAttempts d ≤ ui.reconnectAttempts d →
     ∀ n, reconnects n d = (replicate n None, d))
  ∧ (0 < ui.maxReconnectAttempts d →
     fst (ui.attemptReconnect (ui.onopen d)) = Some 2000)
  ∧ (∀ n, fst (reconnects (5 + n) ui.new_dashboard)
          = [Some 2000; Some 4000; Some 8000; Some 16000; Some 30000]
            ++ replicate n None).
Proof.
  intros Hpos _.
  assert (Hstuck : ∀ d0, ui.maxReconnectAttempts d0 ≤ ui.reconnectAttempts d0 →
                         ∀ n, reconnects n d0 = (replicate n None, d0)).
  { intros d0 Hmax n. induction n as [|n IH]; [done|]. simpl.
    unfold ui.attemptReconnect.
    destruct (Z.leb_spec (ui.maxReconnectAttempts d0) (ui.reconnectAttempts d0)); [|lia].
    by rewrite IH. }
  split; [|split; [exact (Hstuck d)|split]].
  - intros Hlt. eexists. unfold ui.attemptReconnect.
    destruct (Z.leb_spec (ui.maxReconnectAttempts d) (ui.reconnectAttempts d)); [lia|].
    split; [reflexivity|]. split; [reflexivity|].
    assert (2 ≤ 2 ^ (ui.reconnectAttempts d + 1)).
    { rewrite Z.pow_add_r by lia. change (2 ^ 1) with 2.
      assert (0 < 2 ^ ui.reconnectAttempts d) by (apply Z.pow_pos_nonneg; lia). lia. }
    lia.
  - intros Hmax. unfold ui.attemptReconnect, ui.onopen. simpl.
    by destruct (Z.leb_spec (ui.maxReconnectAttempts d) 0); [lia|].
  - intros n.
    change (5 + n)%nat with (S (S (S (S (S n))))). simpl.
    rewrite (Hstuck (ui.mkDashboard 5 5)) by (simpl; lia). done.
Qed.

Lemma dashboard_reconnect_witness :
  0 ≤ ui.reconnectAttempts ui.new_dashboard
  ∧ ui.maxReconnectAttempts ui.new_dashboard ≤ ui.MAX_SAFE_INTEGER
  ∧ fst (reconnects 7 ui.new_dashboard)
    = [Some 2000; Some 4000; Some 8000; Some 16000; Some 30000; None; None].
Proof.
  assert (H : 0 ≤ ui.reconnectAttempts ui.new_dashboard) by (simpl; lia).
  assert (H' : ui.maxReconnectAttempts ui.new_dashboard ≤ ui.MAX_SAFE_INTEGER)
    by (vm_compute; discriminate).
  split; [exact H|]. split; [exact H'|].
  destruct (dashboard_reconnect ui.new_dashboard H H') as (_ & _ & _ & T).
  exact (T 2%nat).
Defined.

(* ===================================================================== *)
(** ** What the mutations do to the keys of the collection *)
(* ===================================================================== *)

Lemma filter_sublist {A} (p : A → bool) (l : list A) : List.filter p l `sublist_of` l.
Proof.
  induction l as [|x l IH]; simpl; [done|].
  destruct (p x); [by apply sublist_skip|by apply sublist_cons].
Qed.

(** X19.  A heartbeat never adds, removes or renames a record: the keys of
    the collection, in order, are those before, whether it succeeds or
    not.  A registration keeps every key in place and adds at most the
    key of the payload, at the end.  A sweep only removes records: what
    it leaves is a subsequence of the collection. *)
Theorem mutations_and_keys (now ttl : Z) (fault : option error) (inst : Instance)
        (s i : string) (c : collection) :
  key <$> snd (UpdateHeartbeat now fault s i c) = key <$> c
  ∧ (key <$> snd (Register now fault inst c) = key <$> c
     ∨ ((key inst ∉ key <$> c)
        ∧ key <$> snd (Register now fault inst c) = (key <$> c) ++ [key inst]))
  ∧ snd (CleanupDead now fault ttl c) `sublist_of` c.
Proof.
  destruct fault as [e|]; [by split; [|split; [left|]]|].
  split; [|split].
  - destruct (UpdateHeartbeat_cases now s i c)
      as [[_ ->]|(l1 & old & l2 & -> & _ & _ & ->)]; simpl; [done|].
    by rewrite !fmap_app, !fmap_cons.
  - destruct (Register_cases now inst c)
      as [[Hall ->]|(l1 & old & l2 & -> & _ & [Hs Hi] & ->)]; simpl.
    + right. split; [by apply not_key_not_in|]. by rewrite fmap_app.
    + left. rewrite !fmap_app, !fmap_cons. unfold key. simpl. by rewrite Hs, Hi.
  - rewrite CleanupDead_filter. apply filter_sublist.
Qed.

(** The table of the SDK's own tests of [validateInstance] and
    [validateMetadata]. *)
Example sdk_validation_tests :
  let valid := mkInstance "test-service" "test-001" "127.0.0.1" 8080 "dev"
                          (mkMetadata "dev" "us-east" 1 "" false) "" 0 in
  sdk.validateInstance valid = None
  ∧ sdk.validateInstance (setServiceName "" valid) ≠ None
  ∧ sdk.validateInstance (setPort 0 valid) ≠ None
  ∧ sdk.validateInstance (setMode "invalid" valid) ≠ None
  ∧ sdk.validateMetadata (mkMetadata "dev" "us-east" 1 "" false) = None
  ∧ sdk.validateMetadata (mkMetadata "dev" "" 1 "" false) ≠ None
  ∧ sdk.validateMetadata (mkMetadata "dev" "us-east" (-1) "" false) ≠ None.
Proof. by vm_compute. Qed.
